(** * The indexed texture-snapshot loader (android/snapshot/TextureLoader.cpp)

    A shallow embedding of [TextureLoader::start], [TextureLoader::readIndex]
    and [TextureLoader::loadTexture], together with the part of the C stdio
    library and of [android::base::Stream] they call, and the properties of
    the loader stated over it. *)

From Stdlib Require Import ZArith Lia Bool Strings.Byte.
From stdpp Require Import base tactics option list gmap.
From Stdlib Require Strings.String.

Local Open Scope Z_scope.

(** ** Big-endian integers *)

Module BigEndian.

Definition byte_to_Z (b : byte) : Z := Z.of_N (Byte.to_N b).

Definition byte_of_Z (z : Z) : byte :=
  match Byte.of_N (Z.to_N (z mod 256)) with
  | Some b => b
  | None => x00
  end.

(** Value of a byte string read most significant byte first. *)
Definition be_decode (bs : list byte) : Z :=
  fold_left (fun acc b => acc * 256 + byte_to_Z b) bs 0.

(** The [n] low-order bytes of [v], most significant first: what a writer
    of the documented format puts in the file for an [n]-byte field. *)
Fixpoint be_encode (n : nat) (v : Z) : list byte :=
  match n with
  | O => []
  | S n' => be_encode n' (v / 256) ++ [byte_of_Z (v mod 256)]
  end.

End BigEndian.
Export BigEndian.

(** ** The C stream under the loader *)

(** A [FILE] opened for reading.  A cell of the file is [Some b] for a byte
    the device delivers and [None] for a byte whose read fails (a medium
    error): reading into the end of the cells sets the end-of-file
    indicator, reading into a [None] cell sets the error indicator. *)
Record FILE : Type := mkFILE {
  f_cells : list (option byte);
  f_pos : Z;
  f_eof : bool;
  f_err : bool
}.

Inductive read_end : Type := ReadFull | ReadEof | ReadErr.

Fixpoint read_cells (n : nat) (cs : list (option byte)) : list byte * read_end :=
  match n with
  | O => ([], ReadFull)
  | S n' =>
      match cs with
      | [] => ([], ReadEof)
      | None :: _ => ([], ReadErr)
      | Some b :: cs' =>
          let '(bs, e) := read_cells n' cs' in (b :: bs, e)
      end
  end.

Definition is_eof (e : read_end) : bool :=
  match e with ReadEof => true | _ => false end.

Definition is_err (e : read_end) : bool :=
  match e with ReadErr => true | _ => false end.

(** [fread(buf, 1, n, f)]: the bytes delivered (possibly fewer than [n]) and
    the stream afterwards. *)
Definition fread (n : nat) (f : FILE) : list byte * FILE :=
  let '(bs, e) := read_cells n (drop (Z.to_nat (f_pos f)) (f_cells f)) in
  (bs, {| f_cells := f_cells f;
          f_pos := f_pos f + Z.of_nat (length bs);
          f_eof := f_eof f || is_eof e;
          f_err := f_err f || is_err e |}).

(** [fseek(f, off, SEEK_SET)] with a signed offset: a negative offset is
    refused (return value -1, stream untouched); otherwise the position is
    set and the end-of-file indicator cleared.  The error indicator is
    left as it is. *)
Definition fseek (f : FILE) (off : Z) : Z * FILE :=
  if off <? 0 then (-1, f)
  else (0, {| f_cells := f_cells f; f_pos := off;
              f_eof := false; f_err := f_err f |}).

Definition ferror (f : FILE) : bool := f_err f.

(** Conversion of a 64-bit unsigned value to the signed 64-bit offset type,
    as [static_cast<int64_t>] does. *)
Definition to_int64 (v : Z) : Z :=
  let w := v mod 2 ^ 64 in
  if w <? 2 ^ 63 then w else w - 2 ^ 64.

(** Modelled from the spec: [android::base::Stream::getBe32] and [getBe64]
    (the stream classes are defined outside TextureLoader.cpp).  The spec's
    stream contract gives big-endian fixed-width reads that return an
    unsigned integer, and no way for such a read to report that it fell
    short.  Here the read is one [fread] of the field's width into a zeroed
    buffer, so bytes that were not delivered count as zero. *)
Definition getBe (width : nat) (f : FILE) : Z * FILE :=
  let '(bs, f') := fread width f in
  (be_decode (bs ++ replicate (width - length bs) x00), f').

Definition getBe32 : FILE -> Z * FILE := getBe 4.
Definition getBe64 : FILE -> Z * FILE := getBe 8.

(** ** The loader object *)

(** What the loader does to its stream, in program order.  The log is ghost
    state: the code never reads it. *)
Inductive event : Type :=
| EvRead (width : nat) (at_pos : Z)   (* a fixed-width read issued at a position *)
| EvSeek (off : Z)                    (* fseek(.., off, SEEK_SET) *)
| EvCall (at_pos : Z).                (* the decode callback entered with the
                                         stream at this position *)

Record TextureLoader : Type := mkLoader {
  mStream : FILE;
  mIndex : gmap Z Z;
  mStarted : bool;
  mHasError : bool;
  ioLog : list event
}.

(** The decode callback [loader_t]: it receives the stream and may do to it
    whatever it likes. *)
Definition loader_t : Type := FILE -> FILE.

(** Modelled from the spec: the initial values of [mIndex], [mStarted] and
    [mHasError], which are set where the class is declared, in
    TextureLoader.h.  The constructor itself only moves the stream in; no
    I/O occurs, the index is empty and nothing has been attempted. *)
Definition TextureLoader_new (stream : FILE) : TextureLoader :=
  {| mStream := stream; mIndex := ∅; mStarted := false;
     mHasError := false; ioLog := [] |}.

(** A member function either returns to its caller or the process is
    aborted by a failed [assert]; [Aborts] keeps the state at that point. *)
Inductive outcome (A : Type) : Type :=
| Returns (a : A) (l : TextureLoader)
| Aborts (l : TextureLoader).
Arguments Returns {A} a l.
Arguments Aborts {A} l.

(** Member functions: the first argument tells whether the build defines
    NDEBUG (assertions compiled out). *)
Definition M (A : Type) : Type := bool -> TextureLoader -> outcome A.

#[global] Instance M_ret : MRet M := fun A a _ l => Returns a l.
#[global] Instance M_bind : MBind M := fun A B k m ndebug l =>
  match m ndebug l with
  | Returns a l' => k a ndebug l'
  | Aborts l' => Aborts l'
  end.

Definition assert_ (cond : bool) : M unit := fun ndebug l =>
  if ndebug || cond then Returns tt l else Aborts l.

Definition with_stream (l : TextureLoader) (f : FILE) (evs : list event) : TextureLoader :=
  {| mStream := f; mIndex := mIndex l; mStarted := mStarted l;
     mHasError := mHasError l; ioLog := ioLog l ++ evs |}.

Definition with_index (l : TextureLoader) (m : gmap Z Z) : TextureLoader :=
  {| mStream := mStream l; mIndex := m; mStarted := mStarted l;
     mHasError := mHasError l; ioLog := ioLog l |}.

Definition with_started (l : TextureLoader) (b : bool) : TextureLoader :=
  {| mStream := mStream l; mIndex := mIndex l; mStarted := b;
     mHasError := mHasError l; ioLog := ioLog l |}.

Definition with_hasError (l : TextureLoader) (b : bool) : TextureLoader :=
  {| mStream := mStream l; mIndex := mIndex l; mStarted := mStarted l;
     mHasError := b; ioLog := ioLog l |}.

Definition mStream_getBe32 : M Z := fun _ l =>
  let '(v, f') := getBe32 (mStream l) in
  Returns v (with_stream l f' [EvRead 4 (f_pos (mStream l))]).

Definition mStream_getBe64 : M Z := fun _ l =>
  let '(v, f') := getBe64 (mStream l) in
  Returns v (with_stream l f' [EvRead 8 (f_pos (mStream l))]).

Definition fseek_mStream (off : Z) : M Z := fun _ l =>
  let '(rc, f') := fseek (mStream l) off in
  Returns rc (with_stream l f' [EvSeek off]).

Definition call_loader (loader : loader_t) : M unit := fun _ l =>
  Returns tt (with_stream l (loader (mStream l)) [EvCall (f_pos (mStream l))]).

Definition ferror_mStream : M bool := fun _ l => Returns (ferror (mStream l)) l.

Definition mIndex_size : M Z := fun _ l => Returns (Z.of_nat (size (mIndex l))) l.

Definition mIndex_count (texId : Z) : M bool := fun _ l =>
  Returns (bool_decide (is_Some (mIndex l !! texId))) l.

(** [unordered_map::emplace]: the pair is inserted only when the key is not
    in the map yet. *)
Definition emplace (k v : Z) (m : gmap Z Z) : gmap Z Z :=
  match m !! k with
  | Some _ => m
  | None => <[k := v]> m
  end.

Definition mIndex_emplace (tex filePos : Z) : M unit := fun _ l =>
  Returns tt (with_index l (emplace tex filePos (mIndex l))).

(** [mIndex.reserve] changes the bucket count only. *)
Definition mIndex_reserve (n : Z) : M unit := fun _ l => Returns tt l.

(** [unordered_map::operator[]]: a missing key is first inserted with a
    value-initialised (zero) offset. *)
Definition mIndex_at (texId : Z) : M Z := fun _ l =>
  match mIndex l !! texId with
  | Some v => Returns v l
  | None => Returns 0 (with_index l (<[texId := 0]> (mIndex l)))
  end.

Definition get_mStarted : M bool := fun _ l => Returns (mStarted l) l.
Definition get_mHasError : M bool := fun _ l => Returns (mHasError l) l.

Definition set_mStarted (b : bool) : M unit := fun _ l =>
  Returns tt (with_started l b).

Definition set_mHasError (b : bool) : M unit := fun _ l =>
  Returns tt (with_hasError l b).

(** The body of the [for] loop of [readIndex], run [n] times. *)
Fixpoint readIndex_loop (n : nat) : M unit :=
  match n with
  | O => mret tt
  | S n' =>
      tex ← mStream_getBe32;
      filePos ← mStream_getBe64;
      mIndex_emplace tex filePos;;
      readIndex_loop n'
  end.

Definition readIndex : M bool :=
  sz ← mIndex_size;
  assert_ (sz =? 0);;
  indexPos ← mStream_getBe64;
  fseek_mStream (to_int64 indexPos);;
  version ← mStream_getBe32;
  if negb (version =? 1) then (mret false : M bool)
  else
    texCount ← mStream_getBe32;
    mIndex_reserve texCount;;
    readIndex_loop (Z.to_nat texCount);;
    mret true.

Definition start : M bool :=
  started ← get_mStarted;
  if (started : bool) then
    hasError ← get_mHasError;
    (mret (negb hasError) : M bool)
  else
    set_mStarted true;;
    res ← readIndex;
    if negb (res : bool) then
      set_mHasError true;;
      (mret false : M bool)
    else mret true.

(** [loadTexture] runs under [AutoLock scopedLock(mLock)] from its first to
    its last statement; within one thread of control the lock changes
    nothing, so it does not appear here.  [fseek] takes a signed offset:
    the stored unsigned 64-bit value is converted on the way, the offset
    type being 64 bits wide as the cast in [readIndex] has it. *)
Definition loadTexture (texId : Z) (loader : loader_t) : M unit :=
  present ← mIndex_count texId;
  assert_ present;;
  off ← mIndex_at texId;
  fseek_mStream (to_int64 off);;
  call_loader loader;;
  err ← ferror_mStream;
  if (err : bool) then set_mHasError true else (mret tt : M unit).

(** ** The documented file format (writer side) *)

Module Format.

Definition encode_record (r : Z * Z) : list byte :=
  be_encode 4 (fst r) ++ be_encode 8 (snd r).

(** The index section: version, record count, records. *)
Definition encode_index (version : Z) (recs : list (Z * Z)) : list byte :=
  be_encode 4 version ++ be_encode 4 (Z.of_nat (length recs))
    ++ flat_map encode_record recs.

(** A stream open on a file all of whose bytes can be read. *)
Definition open_bytes (bs : list byte) : FILE :=
  {| f_cells := Some <$> bs; f_pos := 0; f_eof := false; f_err := false |}.

(** A whole snapshot: the pointer to the index section, the texture
    payloads, the index section. *)
Definition snapshot (payload : list byte) (version : Z) (recs : list (Z * Z)) : list byte :=
  be_encode 8 (8 + Z.of_nat (length payload)) ++ payload ++ encode_index version recs.

End Format.
Export Format.

(** ** Vocabulary of the statements *)

(** The cells from the stream's position on. *)
Definition remaining (f : FILE) : list (option byte) :=
  drop (Z.to_nat (f_pos f)) (f_cells f).

(** The stream presents an index section that begins with the bytes
    [section], at offset [indexPos]: the eight bytes at the stream's
    position hold [indexPos], which is a file offset, and the readable
    bytes [section] lie at that offset. *)
Definition index_section_at (f : FILE) (indexPos : Z) (section : list byte) : Prop :=
  0 <= f_pos f /\ 0 <= indexPos < 2 ^ 63 /\
  (exists rest, remaining f = (Some <$> be_encode 8 indexPos) ++ rest) /\
  (exists rest, drop (Z.to_nat indexPos) (f_cells f) = (Some <$> section) ++ rest).

(** Records whose fields fit their widths, in a number that fits the
    4-byte count. *)
Definition record_fits (r : Z * Z) : Prop :=
  0 <= fst r < 2 ^ 32 /\ 0 <= snd r < 2 ^ 64.

Definition records_fit (recs : list (Z * Z)) : Prop :=
  Forall record_fits recs /\ Z.of_nat (length recs) < 2 ^ 32.

(** The offset of the first record of [recs], in stream order, whose
    texture id is [tex]. *)
Fixpoint first_offset (tex : Z) (recs : list (Z * Z)) : option Z :=
  match recs with
  | [] => None
  | (t, o) :: recs' => if bool_decide (t = tex) then Some o else first_offset tex recs'
  end.

(** The offset of the last such record. *)
Definition last_offset (tex : Z) (recs : list (Z * Z)) : option Z :=
  first_offset tex (rev recs).

(** The index after emplacing the records in order. *)
Definition emplace_all (recs : list (Z * Z)) (m : gmap Z Z) : gmap Z Z :=
  fold_left (fun m r => emplace (fst r) (snd r) m) recs m.

(** The state a call leaves behind, whether it returned or aborted. *)
Definition final {A : Type} (o : outcome A) : TextureLoader :=
  match o with
  | Returns _ l => l
  | Aborts l => l
  end.

(** Calls a client can make on a loader, and sequences of them. *)
Inductive call : Type :=
| CallStart
| CallLoadTexture (texId : Z) (loader : loader_t).

Definition do_call (c : call) : M unit :=
  match c with
  | CallStart => start;; mret tt
  | CallLoadTexture texId loader => loadTexture texId loader
  end.

Fixpoint do_calls (cs : list call) : M unit :=
  match cs with
  | [] => mret tt
  | c :: cs' => do_call c;; do_calls cs'
  end.

Definition is_start (c : call) : bool :=
  match c with CallStart => true | CallLoadTexture _ _ => false end.

(** The spec's three-valued loader state, read off the two flags. *)
Inductive LoaderState : Type := Uninitialized | Ready | Failed.

Definition state_of (l : TextureLoader) : LoaderState :=
  if mStarted l then (if mHasError l then Failed else Ready) else Uninitialized.

(** The stream [n] bytes further on, indicators untouched: what a read of
    [n] bytes that are all delivered leaves. *)
Definition advance (f : FILE) (n : nat) : FILE :=
  {| f_cells := f_cells f; f_pos := f_pos f + Z.of_nat n;
     f_eof := f_eof f; f_err := f_err f |}.

(** The loader once [readIndex] has read the pointer to the index section
    and moved the stream there. *)
Definition at_section (l : TextureLoader) (indexPos : Z) : TextureLoader :=
  {| mStream := {| f_cells := f_cells (mStream l); f_pos := indexPos;
                   f_eof := false; f_err := f_err (mStream l) |};
     mIndex := mIndex l; mStarted := mStarted l; mHasError := mHasError l;
     ioLog := ioLog l ++ [EvRead 8 (f_pos (mStream l)); EvSeek indexPos] |}.

(** Once set, neither flag is cleared. *)
Definition flags_stick (l l' : TextureLoader) : Prop :=
  (mStarted l = true -> mStarted l' = true) /\
  (mHasError l = true -> mHasError l' = true).

(** Both flags as they were. *)
Definition same_flags (l l' : TextureLoader) : Prop :=
  mStarted l' = mStarted l /\ mHasError l' = mHasError l.

(** A member function whose every run relates the state before to the
    state after. *)
Definition keeps {A : Type} (R : TextureLoader -> TextureLoader -> Prop) (m : M A) : Prop :=
  forall ndebug l, R l (final (m ndebug l)).

(** The loader after a [loadTexture] that found offset [off] for its id:
    the seek with the converted offset, the callback on the stream as the
    seek left it, the error flag raised if the stream's indicator is set. *)
Definition after_load (l : TextureLoader) (off : Z) (loader : loader_t) : TextureLoader :=
  let positioned := snd (fseek (mStream l) (to_int64 off)) in
  let decoded := loader positioned in
  {| mStream := decoded; mIndex := mIndex l; mStarted := mStarted l;
     mHasError := if ferror decoded then true else mHasError l;
     ioLog := ioLog l ++ [EvSeek (to_int64 off); EvCall (f_pos positioned)] |}.

(** ** Sample snapshots *)

Module Samples.

(** Three textures, index section at offset 64. *)
Definition three_records : list (Z * Z) := [(1, 100); (2, 500); (42, 2048)].

Definition three_file : FILE :=
  open_bytes (snapshot (replicate 56 x00) 1 three_records).

(** Two records for texture 7. *)
Definition twice_records : list (Z * Z) := [(7, 100); (7, 200)].

Definition twice_file : FILE := open_bytes (snapshot [] 1 twice_records).

(** A section of version 2. *)
Definition version2_file : FILE := open_bytes (snapshot [] 2 three_records).





(** A decode callback that reads a texture of two bytes. *)
Definition read_pixels : loader_t := fun f => snd (fread 2 f).

(** A decode callback that reads nothing. *)
Definition read_nothing : loader_t := fun f => f.

(** An index section that announces two records and ends after the
    first. *)
Definition truncated_file : FILE :=
  open_bytes (be_encode 8 8 ++ be_encode 4 1 ++ be_encode 4 2
                ++ encode_record (1, 100)).

(** An index section with one record, for texture 7, in whose offset
    field a byte cannot be read. *)
Definition unreadable_file : FILE :=
  {| f_cells := (Some <$> be_encode 8 8 ++ be_encode 4 1 ++ be_encode 4 1
                           ++ be_encode 4 7 ++ [x00; x00])
                  ++ [None]
                  ++ (Some <$> [x00; x00; x00; x00; x64]);
     f_pos := 0; f_eof := false; f_err := false |}.

(** Loaders on these files after a first [start], assertions compiled in. *)
Definition three_loader : TextureLoader :=
  final (start false (TextureLoader_new three_file)).



(** A pointer of all ones, and the index section right behind it. *)
Definition stray_pointer_file : FILE :=
  open_bytes (be_encode 8 (2 ^ 64 - 1) ++ encode_index 1 three_records).

(** The loader on [unreadable_file] after its first [start]. *)
Definition unreadable_loader : TextureLoader :=
  final (start false (TextureLoader_new unreadable_file)).

(** A client that starts the loader, loads texture 2 and asks again. *)
Definition three_calls : list call :=
  [CallStart; CallLoadTexture 2 read_nothing; CallStart].

End Samples.

(** ** Vocabulary of the further properties *)

(** The reads the loop of [readIndex] issues for [n] records that start at
    position [pos]: four bytes of id, eight bytes of offset, and on. *)
Fixpoint record_reads (pos : Z) (n : nat) : list event :=
  match n with
  | O => []
  | S n' => EvRead 4 pos :: EvRead 8 (pos + 4) :: record_reads (pos + 12) n'
  end.

(** Every id of the map is a 32-bit and every offset a 64-bit unsigned
    value. *)
Definition index_in_range (m : gmap Z Z) : Prop :=
  map_Forall (fun k v => 0 <= k < 2 ^ 32 /\ 0 <= v < 2 ^ 64) m.

(** The index of [l'] is the index of [l] after emplacing some records
    whose fields fit their widths. *)
Definition index_emplaced (l l' : TextureLoader) : Prop :=
  exists recs, Forall record_fits recs /\ mIndex l' = emplace_all recs (mIndex l).

(** Every binding of [l] is still a binding of [l']. *)
Definition bindings_kept (l l' : TextureLoader) : Prop :=
  mIndex l ⊆ mIndex l'.

(** The texture id of a call is a 32-bit unsigned value, as the parameter
    type of [loadTexture] has it. *)
Definition call_fits (c : call) : Prop :=
  match c with
  | CallStart => True
  | CallLoadTexture texId _ => 0 <= texId < 2 ^ 32
  end.

(** A callback that leaves a clear error indicator clear. *)
Definition keeps_clear (loader : loader_t) : Prop :=
  forall f, f_err f = false -> f_err (loader f) = false.

(** A callback that leaves a set error indicator set. *)
Definition keeps_set (loader : loader_t) : Prop :=
  forall f, f_err f = true -> f_err (loader f) = true.

Definition call_keeps_clear (c : call) : Prop :=
  match c with
  | CallStart => True
  | CallLoadTexture _ loader => keeps_clear loader
  end.

(** The number of [loadTexture] calls of a sequence. *)
Definition count_loads (cs : list call) : nat :=
  length (filter (fun c => is_start c = false) cs).

(** A seek with offset [fst p] and then the callback entered at position
    [snd p]. *)
Definition seek_then_call (p : Z * Z) : list event :=
  [EvSeek (fst p); EvCall (snd p)].

(** The loader after the first statements of [readIndex] when the pointer
    read is [pointer] and [fseek] refuses it: the stream stays right
    behind the pointer. *)
Definition behind_pointer (l : TextureLoader) (pointer : Z) : TextureLoader :=
  {| mStream := advance (mStream l) 8;
     mIndex := mIndex l; mStarted := mStarted l; mHasError := mHasError l;
     ioLog := ioLog l ++ [EvRead 8 (f_pos (mStream l)); EvSeek (pointer - 2 ^ 64)] |}.

(** ** The checks of the emulator's output (tests/end2end/HelloEmulator.cpp) *)

(** The texts the checks look for, as the bytes of the C string literals. *)
Module Markers.
Import Stdlib.Strings.String.

Definition does_not_exist : list byte :=
  Eval cbv in list_byte_of_string "(does not exist)".

Definition main_loop : list byte :=
  Eval cbv in list_byte_of_string "Starting QEMU main loop".

Definition cold_boot : list byte :=
  Eval cbv in list_byte_of_string "Cold boot: requested by the user".

End Markers.

Module EmulatorOutput.

(** [s] begins with [pat]. *)
Fixpoint starts_with (pat s : list byte) : bool :=
  match pat, s with
  | [], _ => true
  | _ :: _, [] => false
  | p :: pat', c :: s' => Byte.eqb p c && starts_with pat' s'
  end.

(** [std::string::find]: the position of the first occurrence of [pat] in
    [s], or [None] for [npos]. *)
Fixpoint find (s pat : list byte) : option nat :=
  match s with
  | [] => if starts_with pat [] then Some O else None
  | _ :: s' => if starts_with pat s then Some O else S <$> find s' pat
  end.

Definition not_empty (s : list byte) : bool :=
  match s with [] => false | _ :: _ => true end.

Definition is_npos (r : option nat) : bool :=
  match r with None => true | Some _ => false end.

Definition didSdkCheckSucceed (output : list byte) : bool :=
  not_empty output && is_npos (find output Markers.does_not_exist).

Definition didEmulatorKernelStartup (output : list byte) : bool :=
  let hasMainLoopStartup := negb (is_npos (find output Markers.main_loop)) in
  let hasColdBootChoice := negb (is_npos (find output Markers.cold_boot)) in
  hasMainLoopStartup && hasColdBootChoice.

(** [pat] occurs somewhere in [s]. *)
Definition occurs_in (pat s : list byte) : Prop :=
  exists pre post, s = pre ++ pat ++ post.

End EmulatorOutput.

(** * Properties *)

(** ** Big-endian fields *)

Section Codec.

Lemma byte_to_Z_range (b : byte) : 0 <= byte_to_Z b < 256.
Proof.
  unfold byte_to_Z. pose proof (Byte.to_N_bounded b). lia.
Qed.

Lemma byte_to_of_Z (z : Z) : byte_to_Z (byte_of_Z z) = z mod 256.
Proof.
  unfold byte_to_Z, byte_of_Z.
  pose proof (Z.mod_pos_bound z 256 ltac:(lia)) as Hz.
  destruct (Byte.of_N (Z.to_N (z mod 256))) as [b|] eqn:E.
  - apply Byte.to_of_N in E. rewrite E. lia.
  - apply Byte.of_N_None_iff in E. lia.
Qed.

Lemma be_decode_snoc (bs : list byte) (b : byte) :
  be_decode (bs ++ [b]) = be_decode bs * 256 + byte_to_Z b.
Proof. unfold be_decode. by rewrite fold_left_app. Qed.

Lemma length_be_encode (n : nat) (v : Z) : length (be_encode n v) = n.
Proof.
  revert v. induction n as [|n IH]; intros v; simpl; [done|].
  rewrite length_app, IH. simpl. lia.
Qed.

(** Decoding an encoded field gives back the value, cut to the width. *)
Lemma be_decode_encode (n : nat) (v : Z) :
  be_decode (be_encode n v) = v mod 256 ^ Z.of_nat n.
Proof.
  revert v. induction n as [|n IH]; intros v.
  - simpl. by rewrite Z.mod_1_r.
  - cbn [be_encode]. rewrite be_decode_snoc, IH, byte_to_of_Z.
    rewrite Nat2Z.inj_succ, Z.pow_succ_r by lia.
    pose proof (Z.pow_pos_nonneg 256 (Z.of_nat n) ltac:(lia) ltac:(lia)).
    rewrite Z.rem_mul_r, Z.mod_mod by lia. lia.
Qed.

Lemma be_decode_encode_fits (n : nat) (v : Z) :
  0 <= v < 256 ^ Z.of_nat n -> be_decode (be_encode n v) = v.
Proof. intros Hv. rewrite be_decode_encode. by apply Z.mod_small. Qed.

End Codec.

(** ** The stream *)

Section Stream.

Lemma read_cells_full (bs : list byte) (rest : list (option byte)) :
  read_cells (length bs) ((Some <$> bs) ++ rest) = (bs, ReadFull).
Proof.
  induction bs as [|b bs IH]; [done|].
  rewrite fmap_cons. cbn [app length read_cells]. by rewrite IH.
Qed.

Lemma remaining_advance (f : FILE) (n : nat) :
  0 <= f_pos f -> remaining (advance f n) = drop n (remaining f).
Proof.
  intros Hp. unfold remaining, advance. simpl.
  rewrite drop_drop. f_equal. lia.
Qed.

(** A read that finds all its bytes delivers them and moves on. *)
Lemma fread_full (f : FILE) (bs : list byte) (rest : list (option byte)) :
  0 <= f_pos f ->
  remaining f = (Some <$> bs) ++ rest ->
  fread (length bs) f = (bs, advance f (length bs)) /\
  remaining (advance f (length bs)) = rest.
Proof.
  intros Hp Hr. split.
  - unfold fread. fold (remaining f). rewrite Hr, read_cells_full.
    unfold advance. by rewrite !orb_false_r.
  - rewrite remaining_advance, Hr by done.
    rewrite <- (length_fmap Some bs). apply drop_app_length.
Qed.

Lemma getBe_encoded (n : nat) (v : Z) (f : FILE) (rest : list (option byte)) :
  0 <= f_pos f ->
  0 <= v < 256 ^ Z.of_nat n ->
  remaining f = (Some <$> be_encode n v) ++ rest ->
  getBe n f = (v, advance f n) /\ remaining (advance f n) = rest.
Proof.
  intros Hp Hv Hr.
  destruct (fread_full f (be_encode n v) rest Hp Hr) as [Hread Hrest].
  rewrite length_be_encode in Hread, Hrest. split; [|done].
  unfold getBe. rewrite Hread, length_be_encode, Nat.sub_diag. simpl.
  by rewrite app_nil_r, be_decode_encode_fits.
Qed.

Lemma to_int64_offset (v : Z) : 0 <= v < 2 ^ 63 -> to_int64 v = v.
Proof.
  intros Hv. unfold to_int64.
  rewrite Z.mod_small by lia.
  destruct (Z.ltb_spec v (2 ^ 63)); lia.
Qed.

Lemma to_int64_negative (v : Z) :
  2 ^ 63 <= v < 2 ^ 64 -> to_int64 v = v - 2 ^ 64 /\ to_int64 v < 0.
Proof.
  intros Hv. unfold to_int64.
  rewrite Z.mod_small by lia.
  destruct (Z.ltb_spec v (2 ^ 63)); lia.
Qed.

Lemma fseek_offset (f : FILE) (off : Z) :
  0 <= off ->
  fseek f off = (0, {| f_cells := f_cells f; f_pos := off;
                       f_eof := false; f_err := f_err f |}).
Proof.
  intros Ho. unfold fseek. destruct (Z.ltb_spec off 0); [lia|done].
Qed.

Lemma fseek_refused (f : FILE) (off : Z) : off < 0 -> fseek f off = (-1, f).
Proof.
  intros Ho. unfold fseek. destruct (Z.ltb_spec off 0); [done|lia].
Qed.

End Stream.

(** ** Running member functions *)

Section Run.

Context {A B : Type}.

Lemma bind_returns (m : M A) (k : A -> M B) ndebug l a l' :
  m ndebug l = Returns a l' -> (m ≫= k) ndebug l = k a ndebug l'.
Proof. intros E. unfold mbind, M_bind. by rewrite E. Qed.

Lemma bind_aborts (m : M A) (k : A -> M B) ndebug l l' :
  m ndebug l = Aborts l' -> (m ≫= k) ndebug l = Aborts l'.
Proof. intros E. unfold mbind, M_bind. by rewrite E. Qed.

End Run.

Section ReadIndex.

Variable ndebug : bool.

Lemma mStream_getBe32_encoded l v rest :
  0 <= f_pos (mStream l) ->
  0 <= v < 2 ^ 32 ->
  remaining (mStream l) = (Some <$> be_encode 4 v) ++ rest ->
  mStream_getBe32 ndebug l =
    Returns v (with_stream l (advance (mStream l) 4) [EvRead 4 (f_pos (mStream l))]) /\
  remaining (advance (mStream l) 4) = rest.
Proof.
  intros Hp Hv Hr.
  destruct (getBe_encoded 4 v (mStream l) rest Hp) as [Hg Hrest]; [lia|done|].
  split; [|done]. unfold mStream_getBe32, getBe32. by rewrite Hg.
Qed.

Lemma mStream_getBe64_encoded l v rest :
  0 <= f_pos (mStream l) ->
  0 <= v < 2 ^ 64 ->
  remaining (mStream l) = (Some <$> be_encode 8 v) ++ rest ->
  mStream_getBe64 ndebug l =
    Returns v (with_stream l (advance (mStream l) 8) [EvRead 8 (f_pos (mStream l))]) /\
  remaining (advance (mStream l) 8) = rest.
Proof.
  intros Hp Hv Hr.
  destruct (getBe_encoded 8 v (mStream l) rest Hp) as [Hg Hrest]; [lia|done|].
  split; [|done]. unfold mStream_getBe64, getBe64. by rewrite Hg.
Qed.

(** The loop over well-formed records emplaces them in stream order and
    touches neither flag. *)
Lemma readIndex_loop_encoded (recs : list (Z * Z)) :
  forall l rest,
    0 <= f_pos (mStream l) ->
    Forall record_fits recs ->
    remaining (mStream l) = (Some <$> flat_map encode_record recs) ++ rest ->
    exists l',
      readIndex_loop (length recs) ndebug l = Returns tt l' /\
      mIndex l' = emplace_all recs (mIndex l) /\
      mStarted l' = mStarted l /\ mHasError l' = mHasError l /\
      f_err (mStream l') = f_err (mStream l).
Proof.
  induction recs as [|[tex off] recs IH]; intros l rest Hp Hfit Hr.
  - exists l. by repeat split.
  - apply Forall_cons in Hfit as [[Htex Hoff] Hfit]. simpl in Htex, Hoff.
    cbn [flat_map encode_record fst snd] in Hr.
    rewrite !fmap_app, <- !app_assoc in Hr.
    destruct (mStream_getBe32_encoded l tex _ Hp Htex Hr) as [E1 Hr1].
    set (l1 := with_stream l (advance (mStream l) 4) [EvRead 4 (f_pos (mStream l))]) in *.
    assert (Hp1 : 0 <= f_pos (mStream l1)) by (simpl; lia).
    destruct (mStream_getBe64_encoded l1 off _ Hp1 Hoff Hr1) as [E2 Hr2].
    set (l2 := with_stream l1 (advance (mStream l1) 8) [EvRead 8 (f_pos (mStream l1))]) in *.
    set (l3 := with_index l2 (emplace tex off (mIndex l2))).
    assert (Hp3 : 0 <= f_pos (mStream l3)) by (simpl; lia).
    destruct (IH l3 rest Hp3 Hfit Hr2) as (l' & E3 & Hi & Hs & He & Hf).
    exists l'. split; [|by repeat split].
    cbn [length readIndex_loop].
    rewrite (bind_returns _ _ _ _ _ _ E1), (bind_returns _ _ _ _ _ _ E2).
    exact E3.
Qed.

(** The first statements of [readIndex], on a stream that presents an
    index section: the pointer is read and the stream moved to it. *)
Lemma readIndex_prefix {B : Type} (k : M B) l indexPos section :
  mIndex l = ∅ ->
  index_section_at (mStream l) indexPos section ->
  (sz ← mIndex_size;
   assert_ (sz =? 0);;
   pos ← mStream_getBe64;
   fseek_mStream (to_int64 pos);;
   k) ndebug l = k ndebug (at_section l indexPos) /\
  remaining (mStream (at_section l indexPos)) = (Some <$> section) ++
    drop (length section) (remaining (mStream (at_section l indexPos))).
Proof.
  intros Hm (Hp & Hi & [rest1 Hr1] & [rest2 Hr2]). split.
  - destruct (mStream_getBe64_encoded l indexPos rest1 Hp ltac:(lia) Hr1) as [E1 _].
    assert (E0 : mIndex_size ndebug l = Returns 0 l).
    { unfold mIndex_size. by rewrite Hm, map_size_empty. }
    rewrite (bind_returns _ _ _ _ _ _ E0).
    assert (Ea : assert_ (0 =? 0) ndebug l = Returns tt l).
    { unfold assert_. by rewrite orb_true_r. }
    rewrite (bind_returns _ _ _ _ _ _ Ea), (bind_returns _ _ _ _ _ _ E1).
    rewrite to_int64_offset by done.
    erewrite bind_returns; [reflexivity|].
    unfold fseek_mStream. cbn [with_stream mStream advance].
    rewrite fseek_offset by lia.
    unfold at_section, with_stream. cbn. by rewrite <- app_assoc.
  - unfold remaining at 1. cbn. rewrite Hr2. f_equal.
    unfold remaining. cbn. rewrite Hr2.
    rewrite <- (length_fmap Some section). by rewrite drop_app_length.
Qed.

(** [readIndex] on a well-formed index section of version 1. *)
Lemma readIndex_section l indexPos recs :
  mIndex l = ∅ ->
  index_section_at (mStream l) indexPos (encode_index 1 recs) ->
  records_fit recs ->
  exists l',
    readIndex ndebug l = Returns true l' /\
    mIndex l' = emplace_all recs ∅ /\
    mStarted l' = mStarted l /\ mHasError l' = mHasError l /\
    f_err (mStream l') = f_err (mStream l).
Proof.
  intros Hm Hsec [Hfit Hlen].
  pose proof Hsec as (_ & Hi & _).
  unfold readIndex.
  edestruct (readIndex_prefix (B := bool)) as [-> Hr]; [done..|].
  set (l0 := at_section l indexPos) in *.
  unfold encode_index in Hr. rewrite !fmap_app, <- !app_assoc in Hr.
  assert (Hp0 : 0 <= f_pos (mStream l0)) by (simpl; lia).
  destruct (mStream_getBe32_encoded l0 1 _ Hp0 ltac:(lia) Hr) as [E1 Hr1].
  rewrite (bind_returns _ _ _ _ _ _ E1). cbn [Z.eqb Pos.eqb negb].
  set (l1 := with_stream l0 _ _) in *.
  assert (Hp1 : 0 <= f_pos (mStream l1)) by (simpl; lia).
  destruct (mStream_getBe32_encoded l1 (Z.of_nat (length recs)) _ Hp1 ltac:(lia) Hr1)
    as [E2 Hr2].
  rewrite (bind_returns _ _ _ _ _ _ E2).
  set (l2 := with_stream l1 _ _) in *.
  assert (Hp2 : 0 <= f_pos (mStream l2)) by (simpl; lia).
  destruct (readIndex_loop_encoded recs l2 _ Hp2 Hfit Hr2) as (l' & E3 & Hidx & Hs & He & Hf).
  exists l'. rewrite Nat2Z.id.
  assert (E4 : mIndex_reserve (Z.of_nat (length recs)) ndebug l2 = Returns tt l2) by done.
  rewrite (bind_returns _ _ _ _ _ _ E4), (bind_returns _ _ _ _ _ _ E3).
  split; [done|]. rewrite Hidx, Hs, He, Hf. simpl. by rewrite Hm.
Qed.

(** [readIndex] on an index section of another version: nothing after
    the version field is read. *)
Lemma readIndex_version l indexPos version :
  mIndex l = ∅ ->
  index_section_at (mStream l) indexPos (be_encode 4 version) ->
  0 <= version < 2 ^ 32 ->
  version <> 1 ->
  readIndex ndebug l =
    Returns false (with_stream (at_section l indexPos)
                     (advance (mStream (at_section l indexPos)) 4)
                     [EvRead 4 indexPos]).
Proof.
  intros Hm Hsec Hv Hne.
  pose proof Hsec as (_ & Hi & _).
  unfold readIndex.
  edestruct (readIndex_prefix (B := bool)) as [-> Hr]; [done..|].
  set (l0 := at_section l indexPos) in *.
  assert (Hp0 : 0 <= f_pos (mStream l0)) by (simpl; lia).
  destruct (mStream_getBe32_encoded l0 version _ Hp0 Hv Hr) as [E1 _].
  rewrite (bind_returns _ _ _ _ _ _ E1).
  destruct (Z.eqb_spec version 1); [done|]. done.
Qed.

End ReadIndex.

(** ** The index as a map *)

Section Index.

Lemma lookup_emplace (k v k' : Z) (m : gmap Z Z) :
  emplace k v m !! k' =
    match m !! k' with
    | Some x => Some x
    | None => if bool_decide (k = k') then Some v else None
    end.
Proof.
  unfold emplace. destruct (m !! k) as [x|] eqn:Ek.
  - destruct (m !! k') as [x'|] eqn:Ek'; [done|].
    case_bool_decide; [congruence|done].
  - case_bool_decide as Hk.
    + subst k'. by rewrite lookup_insert_eq, Ek.
    + rewrite lookup_insert_ne by done. by destruct (m !! k').
Qed.

(** First write wins: an id is bound to the offset of its first record,
    unless the map had it already. *)
Lemma lookup_emplace_all (recs : list (Z * Z)) :
  forall (m : gmap Z Z) (k : Z),
    emplace_all recs m !! k =
      match m !! k with
      | Some x => Some x
      | None => first_offset k recs
      end.
Proof.
  induction recs as [|[t o] recs IH]; intros m k.
  - simpl. by destruct (m !! k).
  - cbn [emplace_all fold_left fst snd first_offset].
    fold (emplace_all recs (emplace t o m)).
    rewrite IH, lookup_emplace.
    destruct (m !! k); [done|]. by case_bool_decide.
Qed.

Lemma first_offset_elem_of (tex off : Z) (recs : list (Z * Z)) :
  first_offset tex recs = Some off -> (tex, off) ∈ recs.
Proof.
  induction recs as [|[t o] recs IH]; [done|].
  cbn [first_offset]. case_bool_decide as Ht.
  - intros [= ->]. subst t. apply list_elem_of_here.
  - intros H. apply list_elem_of_further. by apply IH.
Qed.

Lemma first_offset_NoDup (tex off : Z) (recs : list (Z * Z)) :
  NoDup (recs.*1) -> (tex, off) ∈ recs -> first_offset tex recs = Some off.
Proof.
  induction recs as [|[t o] recs IH]; intros Hnd Hin.
  - by apply elem_of_nil in Hin.
  - rewrite fmap_cons in Hnd. apply NoDup_cons in Hnd as [Hfresh Hnd].
    cbn [first_offset]. apply elem_of_cons in Hin as [[= <- <-]|Hin].
    + by rewrite bool_decide_eq_true_2.
    + case_bool_decide as Ht; [|by apply IH].
      subst t. exfalso. apply Hfresh.
      apply list_elem_of_fmap. by exists (tex, off).
Qed.

End Index.

(** What the writer of the documented format produces presents its index
    section to the reader, as long as the section starts at an offset a
    signed 64-bit integer holds. *)
Lemma snapshot_index_section (payload : list byte) (version : Z) (recs : list (Z * Z)) :
  8 + Z.of_nat (length payload) < 2 ^ 63 ->
  index_section_at (open_bytes (snapshot payload version recs))
    (8 + Z.of_nat (length payload)) (encode_index version recs).
Proof.
  intros Hlen. unfold index_section_at, open_bytes, snapshot, remaining.
  cbn [f_pos f_cells]. change (Z.to_nat 0) with 0%nat. rewrite drop_0.
  split; [lia|]. split; [lia|]. split.
  - eexists. by rewrite fmap_app.
  - exists []. rewrite app_nil_r, app_assoc, fmap_app.
    apply drop_app_length'.
    rewrite length_fmap, length_app, length_be_encode. lia.
Qed.

(** ** [start] *)

Section Start.

Variable ndebug : bool.

(** A repeated call: the recorded flag is reported, nothing is touched. *)
Lemma start_again l :
  mStarted l = true -> start ndebug l = Returns (negb (mHasError l)) l.
Proof.
  intros Hs. unfold start, mbind, M_bind, get_mStarted. by rewrite Hs.
Qed.

(** The first call: [readIndex] decides. *)
Lemma start_first l :
  mStarted l = false ->
  start ndebug l =
    match readIndex ndebug (with_started l true) with
    | Returns true l' => Returns true l'
    | Returns false l' => Returns false (with_hasError l' true)
    | Aborts l' => Aborts l'
    end.
Proof.
  intros Hs. unfold start, mbind, M_bind, get_mStarted. rewrite Hs.
  cbn [set_mStarted].
  destruct (readIndex ndebug (with_started l true)) as [[] l'|l']; done.
Qed.

End Start.

(** C1 (round trip).  On a stream that presents a well-formed index
    section (version 1, the count of its records, records with pairwise
    distinct texture ids), [start] on a new loader returns success, leaves
    the loader ready, and the index binds exactly each texture id of the
    section to its file offset: a pair is in the index if and only if it
    is a record of the section. *)
Theorem start_round_trip (ndebug : bool) (f : FILE) (indexPos : Z) (recs : list (Z * Z)) :
  index_section_at f indexPos (encode_index 1 recs) ->
  records_fit recs ->
  NoDup (recs.*1) ->
  exists l',
    start ndebug (TextureLoader_new f) = Returns true l' /\
    state_of l' = Ready /\
    forall tex off, mIndex l' !! tex = Some off <-> (tex, off) ∈ recs.
Proof.
  intros Hsec Hfit Hnd.
  destruct (readIndex_section ndebug (with_started (TextureLoader_new f) true)
              indexPos recs eq_refl Hsec Hfit) as (l' & E & Hidx & Hs & He & _).
  exists l'. rewrite start_first, E by done. split; [done|]. split.
  - unfold state_of. by rewrite Hs, He.
  - intros tex off. rewrite Hidx, lookup_emplace_all, lookup_empty. split.
    + apply first_offset_elem_of.
    + by apply first_offset_NoDup.
Qed.

(** Discharges [index_section_at] on a concrete stream. *)
Ltac section_at_by_computation :=
  match goal with
  | |- index_section_at ?f ?p ?sec =>
      split; [vm_compute; discriminate|];
      split; [lia|];
      split;
      [ exists (drop 8 (remaining f)); vm_compute; reflexivity
      | exists (drop (length sec) (drop (Z.to_nat p) (f_cells f)));
        vm_compute; reflexivity ]
  end.

Ltac records_fit_by_computation :=
  split; [repeat constructor; simpl; lia | simpl; lia].

Lemma start_round_trip_witness :
  index_section_at Samples.three_file 64 (encode_index 1 Samples.three_records) /\
  records_fit Samples.three_records /\
  NoDup (Samples.three_records.*1) /\
  exists l',
    start false (TextureLoader_new Samples.three_file) = Returns true l' /\
    state_of l' = Ready /\
    forall tex off, mIndex l' !! tex = Some off <-> (tex, off) ∈ Samples.three_records.
Proof.
  assert (H1 : index_section_at Samples.three_file 64 (encode_index 1 Samples.three_records))
    by section_at_by_computation.
  assert (H2 : records_fit Samples.three_records) by records_fit_by_computation.
  assert (H3 : NoDup (Samples.three_records.*1)).
  { apply (bool_decide_unpack _). vm_compute. exact I. }
  split; [exact H1|]. split; [exact H2|]. split; [exact H3|].
  exact (start_round_trip false Samples.three_file 64 Samples.three_records H1 H2 H3).
Defined.

(** C2, as stated, fails: with two records for one texture id the index
    does not hold the offset of the last one.  On [twice_file] the id 7
    has records with offsets 100 and 200, in this order, and is bound to
    100 after [start]. *)
Lemma start_last_write_wins_fails :
  ~ (forall ndebug f indexPos recs l',
        index_section_at f indexPos (encode_index 1 recs) ->
        records_fit recs ->
        start ndebug (TextureLoader_new f) = Returns true l' ->
        forall tex off, last_offset tex recs = Some off -> mIndex l' !! tex = Some off).
Proof.
  intros H.
  specialize (H false Samples.twice_file 8 Samples.twice_records
                (final (start false (TextureLoader_new Samples.twice_file)))).
  assert (E : mIndex (final (start false (TextureLoader_new Samples.twice_file))) !! 7
              = Some 100) by (vm_compute; reflexivity).
  rewrite (H ltac:(section_at_by_computation) ltac:(records_fit_by_computation)
             ltac:(vm_compute; reflexivity) 7 200 eq_refl) in E.
  discriminate E.
Qed.

(** C2, amended (first write wins).  On a stream that presents an index
    section of version 1, with or without repeated texture ids, [start] on
    a new loader returns success and the index binds every texture id to
    the file offset of the first record, in stream order, that carries the
    id; later records with the same id are ignored. *)
Theorem start_first_write_wins (ndebug : bool) (f : FILE) (indexPos : Z) (recs : list (Z * Z)) :
  index_section_at f indexPos (encode_index 1 recs) ->
  records_fit recs ->
  exists l',
    start ndebug (TextureLoader_new f) = Returns true l' /\
    forall tex, mIndex l' !! tex = first_offset tex recs.
Proof.
  intros Hsec Hfit.
  destruct (readIndex_section ndebug (with_started (TextureLoader_new f) true)
              indexPos recs eq_refl Hsec Hfit) as (l' & E & Hidx & _).
  exists l'. rewrite start_first, E by done. split; [done|].
  intros tex. by rewrite Hidx, lookup_emplace_all, lookup_empty.
Qed.

Lemma start_first_write_wins_witness :
  index_section_at Samples.twice_file 8 (encode_index 1 Samples.twice_records) /\
  records_fit Samples.twice_records /\
  exists l',
    start true (TextureLoader_new Samples.twice_file) = Returns true l' /\
    forall tex, mIndex l' !! tex = first_offset tex Samples.twice_records.
Proof.
  assert (H1 : index_section_at Samples.twice_file 8 (encode_index 1 Samples.twice_records))
    by section_at_by_computation.
  assert (H2 : records_fit Samples.twice_records) by records_fit_by_computation.
  split; [exact H1|]. split; [exact H2|].
  exact (start_first_write_wins true Samples.twice_file 8 Samples.twice_records H1 H2).
Defined.

(** ** What every call keeps *)

Section Keeps.

Variable R : TextureLoader -> TextureLoader -> Prop.
Context `{!PreOrder R}.

Lemma keeps_ret {A : Type} (a : A) : keeps R (mret a : M A).
Proof. intros nd l. simpl. reflexivity. Qed.

Lemma keeps_bind {A B : Type} (m : M A) (k : A -> M B) :
  keeps R m -> (forall a, keeps R (k a)) -> keeps R (m ≫= k).
Proof.
  intros Hm Hk nd l. specialize (Hm nd l).
  unfold mbind, M_bind. destruct (m nd l) as [a l1|l1]; simpl in *; [|done].
  etrans; [exact Hm|]. apply Hk.
Qed.

Lemma keeps_assert (c : bool) : keeps R (assert_ c).
Proof. intros nd l. unfold assert_. destruct (nd || c); simpl; reflexivity. Qed.

Lemma keeps_if {A : Type} (c : bool) (m1 m2 : M A) :
  keeps R m1 -> keeps R m2 -> keeps R (if c then m1 else m2).
Proof. by destruct c. Qed.

End Keeps.

(** Relations that look at the two flags only: the stream operations and
    the index operations keep them. *)
Section KeepsFlags.

Variable R : TextureLoader -> TextureLoader -> Prop.
Context `{!PreOrder R}.
Hypothesis R_stream : forall l f evs, R l (with_stream l f evs).
Hypothesis R_index : forall l m, R l (with_index l m).

Lemma keeps_getBe32 : keeps R mStream_getBe32.
Proof.
  intros nd l. unfold mStream_getBe32.
  destruct (getBe32 (mStream l)). apply R_stream.
Qed.

Lemma keeps_getBe64 : keeps R mStream_getBe64.
Proof.
  intros nd l. unfold mStream_getBe64.
  destruct (getBe64 (mStream l)). apply R_stream.
Qed.

Lemma keeps_fseek off : keeps R (fseek_mStream off).
Proof.
  intros nd l. unfold fseek_mStream.
  destruct (fseek (mStream l) off). apply R_stream.
Qed.

Lemma keeps_call_loader loader : keeps R (call_loader loader).
Proof. intros nd l. apply R_stream. Qed.

Lemma keeps_mIndex_at texId : keeps R (mIndex_at texId).
Proof.
  intros nd l. unfold mIndex_at.
  destruct (mIndex l !! texId); [reflexivity|apply R_index].
Qed.

Lemma keeps_mIndex_emplace tex filePos : keeps R (mIndex_emplace tex filePos).
Proof. intros nd l. apply R_index. Qed.

Lemma keeps_readIndex_loop n : keeps R (readIndex_loop n).
Proof.
  induction n as [|n IH]; cbn [readIndex_loop].
  - by apply keeps_ret.
  - apply keeps_bind; [done|apply keeps_getBe32|intros tex].
    apply keeps_bind; [done|apply keeps_getBe64|intros filePos].
    apply keeps_bind; [done|apply keeps_mIndex_emplace|intros _]. exact IH.
Qed.

Lemma keeps_readIndex : keeps R readIndex.
Proof.
  unfold readIndex.
  apply keeps_bind; [done|intros nd l; reflexivity|intros sz].
  apply keeps_bind; [done|by apply keeps_assert|intros _].
  apply keeps_bind; [done|apply keeps_getBe64|intros indexPos].
  apply keeps_bind; [done|apply keeps_fseek|intros _].
  apply keeps_bind; [done|apply keeps_getBe32|intros version].
  apply keeps_if; [by apply keeps_ret|].
  apply keeps_bind; [done|apply keeps_getBe32|intros texCount].
  apply keeps_bind; [done|intros nd l; reflexivity|intros _].
  apply keeps_bind; [done|apply keeps_readIndex_loop|intros _].
  by apply keeps_ret.
Qed.

(** [loadTexture] up to its test of the stream's error indicator. *)
Lemma keeps_loadTexture texId loader :
  keeps R (set_mHasError true) -> keeps R (loadTexture texId loader).
Proof.
  intros Hset. unfold loadTexture.
  apply keeps_bind; [done|intros nd l; reflexivity|intros present].
  apply keeps_bind; [done|by apply keeps_assert|intros _].
  apply keeps_bind; [done|apply keeps_mIndex_at|intros off].
  apply keeps_bind; [done|apply keeps_fseek|intros _].
  apply keeps_bind; [done|apply keeps_call_loader|intros _].
  apply keeps_bind; [done|intros nd l; reflexivity|intros err].
  apply keeps_if; [exact Hset|by apply keeps_ret].
Qed.

End KeepsFlags.

#[local] Instance flags_stick_preorder : PreOrder flags_stick.
Proof.
  split.
  - by intros l.
  - intros l1 l2 l3 [H1 H2] [H3 H4]. split; auto.
Qed.

#[local] Instance same_flags_preorder : PreOrder same_flags.
Proof.
  split.
  - by intros l.
  - intros l1 l2 l3 [H1 H2] [H3 H4]. split; congruence.
Qed.

Section Flags.

(** [readIndex] writes neither flag. *)
Lemma same_flags_readIndex : keeps same_flags readIndex.
Proof. apply keeps_readIndex; [apply _|done..]. Qed.

Lemma flags_start : keeps flags_stick start.
Proof.
  unfold start.
  apply keeps_bind; [apply _|by intros nd l|intros started].
  apply keeps_if.
  - apply keeps_bind; [apply _|by intros nd l|intros hasError].
    apply keeps_ret, _.
  - apply keeps_bind; [apply _|by intros nd l|intros _].
    apply keeps_bind; [apply _| |intros res].
    { apply keeps_readIndex; [apply _|done..]. }
    apply keeps_if; [|apply keeps_ret, _].
    apply keeps_bind; [apply _|by intros nd l|intros _].
    apply keeps_ret, _.
Qed.

Lemma flags_loadTexture texId loader : keeps flags_stick (loadTexture texId loader).
Proof. apply keeps_loadTexture; [apply _|done..|by intros nd l]. Qed.

(** No sequence of calls clears a flag. *)
Lemma flags_do_calls cs : keeps flags_stick (do_calls cs).
Proof.
  induction cs as [|c cs IH]; cbn [do_calls].
  - apply keeps_ret, _.
  - apply keeps_bind; [apply _| |intros _; exact IH].
    destruct c as [|texId loader]; cbn [do_call].
    + apply keeps_bind; [apply _|apply flags_start|intros _]. apply keeps_ret, _.
    + apply flags_loadTexture.
Qed.

End Flags.

(** C6 (version gate).  On a stream whose index section has a version
    field other than 1, [start] on a new loader returns failure; the only
    stream operations are the read of the pointer, the seek to the section
    and the read of the version field, so neither the count nor any record
    is read and the index stays empty; the loader is in state Failed, and
    stays there whatever calls follow: every later [start] returns failure
    again. *)
Theorem start_version_gate (ndebug : bool) (f : FILE) (indexPos version : Z) :
  index_section_at f indexPos (be_encode 4 version) ->
  0 <= version < 2 ^ 32 ->
  version <> 1 ->
  exists l',
    start ndebug (TextureLoader_new f) = Returns false l' /\
    state_of l' = Failed /\
    mIndex l' = ∅ /\
    ioLog l' = [EvRead 8 (f_pos f); EvSeek indexPos; EvRead 4 indexPos] /\
    forall cs,
      state_of (final (do_calls cs ndebug l')) = Failed /\
      start ndebug (final (do_calls cs ndebug l')) =
        Returns false (final (do_calls cs ndebug l')).
Proof.
  intros Hsec Hv Hne.
  pose proof (readIndex_version ndebug (with_started (TextureLoader_new f) true)
                indexPos version eq_refl Hsec Hv Hne) as E.
  eexists. rewrite start_first, E by done.
  split; [reflexivity|]. split; [done|]. split; [done|]. split; [done|].
  intros cs.
  match goal with |- context [do_calls cs ndebug ?l0] =>
    destruct (flags_do_calls cs ndebug l0) as [Hs He] end.
  specialize (Hs eq_refl). specialize (He eq_refl).
  split.
  - unfold state_of. by rewrite Hs, He.
  - rewrite start_again by done. by rewrite He.
Qed.

Lemma start_version_gate_witness :
  index_section_at Samples.version2_file 8 (be_encode 4 2) /\
  exists l',
    start false (TextureLoader_new Samples.version2_file) = Returns false l' /\
    state_of l' = Failed /\
    mIndex l' = ∅ /\
    ioLog l' = [EvRead 8 0; EvSeek 8; EvRead 4 8] /\
    forall cs,
      state_of (final (do_calls cs false l')) = Failed /\
      start false (final (do_calls cs false l')) =
        Returns false (final (do_calls cs false l')).
Proof.
  assert (H1 : index_section_at Samples.version2_file 8 (be_encode 4 2))
    by section_at_by_computation.
  split; [exact H1|].
  exact (start_version_gate false Samples.version2_file 8 2 H1 ltac:(lia) ltac:(lia)).
Defined.

(** ** [loadTexture] *)

Section LoadTexture.

Variables (texId : Z) (loader : loader_t).

(** An id of the index: seek, callback, test of the error indicator. *)
Lemma loadTexture_present ndebug l off :
  mIndex l !! texId = Some off ->
  loadTexture texId loader ndebug l = Returns tt (after_load l off loader).
Proof.
  intros Hk.
  assert (E1 : mIndex_count texId ndebug l = Returns true l).
  { unfold mIndex_count. by rewrite Hk, bool_decide_eq_true_2 by eauto. }
  assert (E2 : assert_ true ndebug l = Returns tt l).
  { unfold assert_. by rewrite orb_true_r. }
  assert (E3 : mIndex_at texId ndebug l = Returns off l).
  { unfold mIndex_at. by rewrite Hk. }
  unfold loadTexture.
  rewrite (bind_returns _ _ _ _ _ _ E1), (bind_returns _ _ _ _ _ _ E2),
    (bind_returns _ _ _ _ _ _ E3).
  unfold mbind, M_bind, fseek_mStream, after_load.
  destruct (fseek (mStream l) (to_int64 off)) as [rc f1]. cbn.
  destruct (ferror (loader f1)); cbn; unfold with_hasError, with_stream; cbn;
    by rewrite <- app_assoc.
Qed.

(** An id that is not in the index, assertions compiled in: the
    assertion stops the process before anything is done. *)
Lemma loadTexture_absent_assert l :
  mIndex l !! texId = None ->
  loadTexture texId loader false l = Aborts l.
Proof.
  intros Hk.
  unfold loadTexture, mbind, M_bind, mIndex_count, assert_.
  rewrite Hk, bool_decide_eq_false_2; [done|].
  by intros [? ?].
Qed.

(** An id that is not in the index, assertions compiled out:
    [operator[]] binds the id to offset 0 and the load goes on. *)
Lemma loadTexture_absent_ndebug l :
  mIndex l !! texId = None ->
  loadTexture texId loader true l =
    Returns tt (after_load (with_index l (<[texId := 0]> (mIndex l))) 0 loader).
Proof.
  intros Hk.
  assert (E1 : mIndex_count texId true l = Returns false l).
  { unfold mIndex_count. rewrite Hk, bool_decide_eq_false_2; [done|]. by intros [? ?]. }
  assert (E3 : mIndex_at texId true l =
               Returns 0 (with_index l (<[texId := 0]> (mIndex l)))).
  { unfold mIndex_at. by rewrite Hk. }
  unfold loadTexture.
  rewrite (bind_returns _ _ _ _ _ _ E1).
  erewrite (bind_returns (assert_ false)) by reflexivity.
  rewrite (bind_returns _ _ _ _ _ _ E3).
  unfold mbind, M_bind, fseek_mStream, after_load.
  destruct (fseek _ (to_int64 0)) as [rc f1]. cbn.
  destruct (ferror (loader f1)); cbn; unfold with_hasError, with_stream; cbn;
    by rewrite <- app_assoc.
Qed.

End LoadTexture.

(** ** More on [start] *)

Section StartFlags.

Variable ndebug : bool.

(** The loop always runs to its end. *)
Lemma readIndex_loop_returns n l :
  exists l', readIndex_loop n ndebug l = Returns tt l'.
Proof.
  revert l. induction n as [|n IH]; intros l; [by eexists|].
  cbn [readIndex_loop].
  unfold mbind, M_bind, mStream_getBe32, mStream_getBe64, mIndex_emplace.
  destruct (getBe32 (mStream l)) as [tex f1]. cbn [with_stream mStream].
  destruct (getBe64 f1) as [filePos f2]. apply IH.
Qed.

(** Only the version test decides what [readIndex] returns. *)
Lemma readIndex_outcome l :
  ndebug || (Z.of_nat (size (mIndex l)) =? 0) = true ->
  exists l',
    readIndex ndebug l =
      Returns (fst (getBe32 (snd (fseek (snd (getBe64 (mStream l)))
                                    (to_int64 (fst (getBe64 (mStream l))))))) =? 1) l'.
Proof.
  intros Ha.
  unfold readIndex, mbind, M_bind, mIndex_size, assert_, mStream_getBe64,
    fseek_mStream, mStream_getBe32, mIndex_reserve.
  rewrite Ha.
  destruct (getBe64 (mStream l)) as [pos f1]. cbn [fst snd with_stream mStream].
  destruct (fseek f1 (to_int64 pos)) as [rc f2]. cbn [fst snd with_stream mStream].
  destruct (getBe32 f2) as [version f3]. cbn [fst snd with_stream mStream].
  destruct (version =? 1); cbn [negb]; [|by eexists].
  cbn [with_stream mStream]. destruct (getBe32 f3) as [texCount f4].
  match goal with |- context [readIndex_loop ?n ndebug ?l0] =>
    destruct (readIndex_loop_returns n l0) as [l' ->] end.
  by eexists.
Qed.

(** [readIndex] has one failing exit, before anything is emplaced. *)
Lemma readIndex_false l l' :
  readIndex ndebug l = Returns false l' -> mIndex l' = mIndex l.
Proof.
  unfold readIndex, mbind, M_bind, mIndex_size, assert_, mStream_getBe64,
    fseek_mStream, mStream_getBe32, mIndex_reserve.
  destruct (ndebug || _); [|discriminate].
  destruct (getBe64 (mStream l)) as [pos f1].
  destruct (fseek _ _) as [rc f2]. cbn [with_stream mStream].
  destruct (getBe32 f2) as [version f3].
  destruct (negb (version =? 1)).
  - by intros [= <-].
  - cbn [with_stream mStream]. destruct (getBe32 f3) as [texCount f4].
    destruct (readIndex_loop _ _ _); discriminate.
Qed.

(** The flags after the first call. *)
Lemma start_first_flags l r l' :
  mStarted l = false ->
  start ndebug l = Returns r l' ->
  mStarted l' = true /\
  mHasError l' = (if r then mHasError l else true) /\
  (r = false -> mIndex l' = mIndex l).
Proof.
  intros Hs. rewrite start_first by done.
  pose proof (same_flags_readIndex ndebug (with_started l true)) as [Hs' He'].
  pose proof (readIndex_false (with_started l true)) as Hf.
  destruct (readIndex ndebug (with_started l true)) as [[] l0|l0];
    intros [= <- <-]; simpl in *.
  - by rewrite Hs', He'.
  - rewrite Hs'. split; [done|]. split; [done|]. intros _. by apply Hf.
Qed.


End StartFlags.

(** ** Loading an id that cannot be served *)

(** C3, as stated, fails: for an id that is not in the index the call does
    not come back to its caller with a result and an untouched stream.
    On the ready loader over [three_file], with id 3: compiled with
    assertions the call is aborted; compiled without, it seeks to offset 0
    and runs the callback, so the log grows. *)
Lemma loadTexture_unknown_id_fails :
  ~ (forall l texId loader,
        state_of l = Ready -> mIndex l !! texId = None ->
        exists l', loadTexture texId loader false l = Returns tt l' /\
                   ioLog l' = ioLog l) /\
  ~ (forall l texId loader,
        state_of l = Ready -> mIndex l !! texId = None ->
        exists l', loadTexture texId loader true l = Returns tt l' /\
                   ioLog l' = ioLog l).
Proof.
  assert (Hr : state_of Samples.three_loader = Ready) by (vm_compute; reflexivity).
  assert (Hk : mIndex Samples.three_loader !! 3 = None) by (vm_compute; reflexivity).
  split; intros H;
    destruct (H Samples.three_loader 3 Samples.read_nothing Hr Hk) as (l' & E & Hlog).
  - rewrite loadTexture_absent_assert in E by done. discriminate E.
  - rewrite loadTexture_absent_ndebug in E by done.
    injection E as <-. cbn [after_load ioLog with_index] in Hlog.
    apply (f_equal length) in Hlog. rewrite length_app in Hlog. simpl in Hlog. lia.
Qed.

(** C3, amended.  For every loader and every texture id that is not in the
    index, [loadTexture], compiled with assertions, fails its assertion
    [mIndex.count(texId)]: the process is aborted and no result reaches
    the caller; up to that point nothing has changed, so no seek was
    performed on the stream and the callback was not invoked. *)
Theorem loadTexture_unknown_id_aborts (l : TextureLoader) (texId : Z) (loader : loader_t) :
  mIndex l !! texId = None ->
  loadTexture texId loader false l = Aborts l.
Proof. apply loadTexture_absent_assert. Qed.

Lemma loadTexture_unknown_id_aborts_witness :
  mIndex Samples.three_loader !! 3 = None /\
  loadTexture 3 Samples.read_nothing false Samples.three_loader =
    Aborts Samples.three_loader.
Proof.
  assert (Hk : mIndex Samples.three_loader !! 3 = None) by (vm_compute; reflexivity).
  split; [exact Hk|].
  exact (loadTexture_unknown_id_aborts Samples.three_loader 3 Samples.read_nothing Hk).
Defined.

(** C4, as stated, fails: on a loader whose [start] was never called, or
    returned failure, a load does not come back with a result and an
    untouched stream.  On a new loader over [three_file]: compiled with
    assertions the call is aborted; compiled without, it seeks to offset 0
    and runs the callback. *)
Lemma loadTexture_not_ready_fails :
  ~ (forall l texId loader,
        state_of l <> Ready ->
        exists l', loadTexture texId loader false l = Returns tt l' /\
                   ioLog l' = ioLog l) /\
  ~ (forall l texId loader,
        state_of l <> Ready ->
        exists l', loadTexture texId loader true l = Returns tt l' /\
                   ioLog l' = ioLog l).
Proof.
  assert (Hr : state_of (TextureLoader_new Samples.three_file) <> Ready) by done.
  split; intros H;
    destruct (H (TextureLoader_new Samples.three_file) 1 Samples.read_nothing Hr)
      as (l' & E & Hlog).
  - rewrite loadTexture_absent_assert in E by done. discriminate E.
  - rewrite loadTexture_absent_ndebug in E by done.
    injection E as <-. discriminate Hlog.
Qed.

(** C4, amended.  A loader on which [start] has not been called, or whose
    first [start] returned failure, is not ready and has an empty index;
    every [loadTexture] call on it, compiled with assertions, fails the
    assertion [mIndex.count(texId)]: the process is aborted, no result
    reaches the caller, and up to that point nothing has changed, so the
    stream was not sought and the callback was not invoked. *)
Theorem loadTexture_before_ready_aborts
    (f : FILE) (l : TextureLoader) (texId : Z) (loader : loader_t) :
  l = TextureLoader_new f \/ start false (TextureLoader_new f) = Returns false l ->
  state_of l <> Ready /\
  mIndex l = ∅ /\
  loadTexture texId loader false l = Aborts l.
Proof.
  intros Hl.
  assert (Hstate : state_of l <> Ready /\ mIndex l = ∅).
  { destruct Hl as [->|E]; [done|].
    apply start_first_flags in E as (Hs & He & Hi); [|done].
    unfold state_of. rewrite Hs, He. split; [done|]. by apply Hi. }
  destruct Hstate as [Hn Hi]. split; [done|]. split; [done|].
  apply loadTexture_absent_assert. by rewrite Hi.
Qed.

Lemma loadTexture_before_ready_aborts_witness :
  start false (TextureLoader_new Samples.version2_file) =
    Returns false (final (start false (TextureLoader_new Samples.version2_file))) /\
  loadTexture 1 Samples.read_nothing false
      (final (start false (TextureLoader_new Samples.version2_file))) =
    Aborts (final (start false (TextureLoader_new Samples.version2_file))).
Proof.
  assert (E : start false (TextureLoader_new Samples.version2_file) =
              Returns false (final (start false (TextureLoader_new Samples.version2_file))))
    by (vm_compute; reflexivity).
  split; [exact E|].
  exact (proj2 (proj2 (loadTexture_before_ready_aborts Samples.version2_file _ 1
                          Samples.read_nothing (or_intror E)))).
Defined.

(** ** Repeated [start] *)




(** ** Stream errors seen by [loadTexture] *)




(** ** Where the callback finds the stream *)




(** ** Stream failures while the index is read *)

(** [readIndex] never looks at what the stream reports: whatever the
    stream holds, [start] on a new loader fails only if the value read for
    the version field is not 1.  The value read is the one [getBe32]
    returns after the pointer has been read and sought. *)
Lemma start_outcome_is_version_test (ndebug : bool) (f : FILE) :
  exists l',
    start ndebug (TextureLoader_new f) =
      Returns (fst (getBe32 (snd (fseek (snd (getBe64 f))
                                    (to_int64 (fst (getBe64 f)))))) =? 1) l'.
Proof.
  rewrite start_first by done.
  destruct (readIndex_outcome ndebug (with_started (TextureLoader_new f) true))
    as [l' E].
  { cbn. by rewrite orb_true_r. }
  cbn [with_started TextureLoader_new mStream] in E. rewrite E.
  destruct (_ =? 1); by eexists.
Qed.

(** C9, at the failing inputs.  On [truncated_file], whose index section
    announces two records and ends after the first, the reads of the
    second record deliver nothing and set the end-of-file indicator, yet
    [start] returns success, the loader is ready, and the index binds the
    id 0 to the offset 0 besides the record that was there.  On
    [unreadable_file], where a byte of the only record's offset field
    cannot be read, the stream's error indicator is set, yet [start]
    returns success and the index binds the id 7 to the offset 0. *)
Theorem start_ignores_failed_reads :
  (exists l',
     start false (TextureLoader_new Samples.truncated_file) = Returns true l' /\
     f_eof (mStream l') = true /\
     state_of l' = Ready /\
     mIndex l' = {[ 1 := 100; 0 := 0 ]}) /\
  (exists l',
     start false (TextureLoader_new Samples.unreadable_file) = Returns true l' /\
     ferror (mStream l') = true /\
     state_of l' = Ready /\
     mIndex l' = {[ 7 := 0 ]}).
Proof.
  split.
  - exists (final (start false (TextureLoader_new Samples.truncated_file))).
    repeat split; vm_compute; reflexivity.
  - exists (final (start false (TextureLoader_new Samples.unreadable_file))).
    repeat split; vm_compute; reflexivity.
Qed.


(** * Further properties of the loader *)

(** ** What [readIndex] does to the stream *)

Section SectionIO.

Variable ndebug : bool.

Lemma advance_advance (f : FILE) (a b : nat) :
  advance (advance f a) b = advance f (a + b).
Proof. unfold advance. cbn. f_equal. lia. Qed.

(** The loop over well-formed records, with its reads and the stream it
    leaves. *)
Lemma readIndex_loop_encoded_io (recs : list (Z * Z)) :
  forall l rest,
    0 <= f_pos (mStream l) ->
    Forall record_fits recs ->
    remaining (mStream l) = (Some <$> flat_map encode_record recs) ++ rest ->
    exists l',
      readIndex_loop (length recs) ndebug l = Returns tt l' /\
      mIndex l' = emplace_all recs (mIndex l) /\
      mStarted l' = mStarted l /\ mHasError l' = mHasError l /\
      ioLog l' = ioLog l ++ record_reads (f_pos (mStream l)) (length recs) /\
      mStream l' = advance (mStream l) (12 * length recs) /\
      remaining (mStream l') = rest.
Proof.
  induction recs as [|[tex off] recs IH]; intros l rest Hp Hfit Hr.
  - exists l. simpl. rewrite app_nil_r. repeat split; try done.
    unfold advance. destruct (mStream l). cbn. f_equal. lia.
  - apply Forall_cons in Hfit as [[Htex Hoff] Hfit]. simpl in Htex, Hoff.
    cbn [flat_map encode_record fst snd] in Hr.
    rewrite !fmap_app, <- !app_assoc in Hr.
    destruct (mStream_getBe32_encoded ndebug l tex _ Hp Htex Hr) as [E1 Hr1].
    set (l1 := with_stream l (advance (mStream l) 4) [EvRead 4 (f_pos (mStream l))]) in *.
    assert (Hp1 : 0 <= f_pos (mStream l1)) by (simpl; lia).
    destruct (mStream_getBe64_encoded ndebug l1 off _ Hp1 Hoff Hr1) as [E2 Hr2].
    set (l2 := with_stream l1 (advance (mStream l1) 8) [EvRead 8 (f_pos (mStream l1))]) in *.
    set (l3 := with_index l2 (emplace tex off (mIndex l2))).
    assert (Hp3 : 0 <= f_pos (mStream l3)) by (simpl; lia).
    destruct (IH l3 rest Hp3 Hfit Hr2) as (l' & E3 & Hi & Hs & He & Hlog & Hst & Hrem).
    exists l'. split.
    { cbn [length readIndex_loop].
      rewrite (bind_returns _ _ _ _ _ _ E1), (bind_returns _ _ _ _ _ _ E2).
      exact E3. }
    split; [done|]. split; [done|]. split; [done|]. split; [|split; [|done]].
    + rewrite Hlog. cbn [length record_reads]. subst l3 l2 l1. cbn.
      rewrite <- !app_assoc. cbn. do 4 f_equal. lia.
    + rewrite Hst. subst l3 l2 l1. cbn [with_index with_stream mStream].
      rewrite !advance_advance. f_equal. cbn [length]. lia.
Qed.

(** [readIndex] from the version field on, on a well-formed section of
    version 1. *)
Lemma readIndex_tail l0 recs rest :
  0 <= f_pos (mStream l0) ->
  records_fit recs ->
  remaining (mStream l0) = (Some <$> encode_index 1 recs) ++ rest ->
  exists l',
    (version ← mStream_getBe32;
     if negb (version =? 1) then (mret false : M bool)
     else
       texCount ← mStream_getBe32;
       mIndex_reserve texCount;;
       readIndex_loop (Z.to_nat texCount);;
       mret true) ndebug l0 = Returns true l' /\
    mIndex l' = emplace_all recs (mIndex l0) /\
    mStarted l' = mStarted l0 /\ mHasError l' = mHasError l0 /\
    ioLog l' = ioLog l0 ++ EvRead 4 (f_pos (mStream l0))
                 :: EvRead 4 (f_pos (mStream l0) + 4)
                 :: record_reads (f_pos (mStream l0) + 8) (length recs) /\
    mStream l' = advance (mStream l0) (8 + 12 * length recs).
Proof.
  intros Hp0 [Hfit Hlen] Hr.
  unfold encode_index in Hr. rewrite !fmap_app, <- !app_assoc in Hr.
  destruct (mStream_getBe32_encoded ndebug l0 1 _ Hp0 ltac:(lia) Hr) as [E1 Hr1].
  rewrite (bind_returns _ _ _ _ _ _ E1). cbn [Z.eqb Pos.eqb negb].
  set (l1 := with_stream l0 _ _) in *.
  assert (Hp1 : 0 <= f_pos (mStream l1)) by (simpl; lia).
  destruct (mStream_getBe32_encoded ndebug l1 (Z.of_nat (length recs)) _ Hp1 ltac:(lia) Hr1)
    as [E2 Hr2].
  rewrite (bind_returns _ _ _ _ _ _ E2).
  set (l2 := with_stream l1 _ _) in *.
  assert (Hp2 : 0 <= f_pos (mStream l2)) by (simpl; lia).
  destruct (readIndex_loop_encoded_io recs l2 _ Hp2 Hfit Hr2)
    as (l' & E3 & Hidx & Hs & He & Hlog & Hst & _).
  exists l'. rewrite Nat2Z.id.
  assert (E4 : mIndex_reserve (Z.of_nat (length recs)) ndebug l2 = Returns tt l2) by done.
  rewrite (bind_returns _ _ _ _ _ _ E4), (bind_returns _ _ _ _ _ _ E3).
  split; [done|]. split; [by rewrite Hidx|]. split; [by rewrite Hs|].
  split; [by rewrite He|]. split.
  - rewrite Hlog. subst l2 l1. cbn. rewrite <- !app_assoc. cbn.
    do 4 f_equal. lia.
  - rewrite Hst. subst l2 l1. cbn [with_stream mStream].
    rewrite !advance_advance. f_equal.
Qed.

(** The first statements of [readIndex] when the pointer does not fit the
    signed offset type: [fseek] refuses it and the stream stays where the
    read of the pointer left it. *)
Lemma readIndex_prefix_refused {B : Type} (k : M B) l pointer rest :
  mIndex l = ∅ ->
  0 <= f_pos (mStream l) ->
  2 ^ 63 <= pointer < 2 ^ 64 ->
  remaining (mStream l) = (Some <$> be_encode 8 pointer) ++ rest ->
  (sz ← mIndex_size;
   assert_ (sz =? 0);;
   pos ← mStream_getBe64;
   fseek_mStream (to_int64 pos);;
   k) ndebug l = k ndebug (behind_pointer l pointer) /\
  remaining (mStream (behind_pointer l pointer)) = rest.
Proof.
  intros Hm Hp Hptr Hr.
  destruct (mStream_getBe64_encoded ndebug l pointer rest Hp ltac:(lia) Hr) as [E1 Hr1].
  split; [|exact Hr1].
  assert (E0 : mIndex_size ndebug l = Returns 0 l).
  { unfold mIndex_size. by rewrite Hm, map_size_empty. }
  rewrite (bind_returns _ _ _ _ _ _ E0).
  assert (Ea : assert_ (0 =? 0) ndebug l = Returns tt l).
  { unfold assert_. by rewrite orb_true_r. }
  rewrite (bind_returns _ _ _ _ _ _ Ea), (bind_returns _ _ _ _ _ _ E1).
  destruct (to_int64_negative pointer Hptr) as [-> Hneg].
  erewrite bind_returns; [reflexivity|].
  unfold fseek_mStream. cbn [with_stream mStream].
  rewrite fseek_refused by lia.
  unfold behind_pointer, with_stream. cbn. by rewrite <- app_assoc.
Qed.

End SectionIO.

(** X1 (the reads of [start]).  On a stream that presents a well-formed
    index section of version 1, [start] on a new loader issues exactly
    these stream operations, in this order: the read of the 8-byte
    pointer, the seek to the section, the reads of version and count, and
    for each record the read of its 4-byte id and of its 8-byte offset,
    one behind the other.  It leaves the stream right behind the last
    record, with the end-of-file indicator clear and the cells and the
    error indicator as they were: nothing outside the pointer and the
    section is read. *)
Theorem start_reads_section_only (ndebug : bool) (f : FILE) (indexPos : Z) (recs : list (Z * Z)) :
  index_section_at f indexPos (encode_index 1 recs) ->
  records_fit recs ->
  exists l',
    start ndebug (TextureLoader_new f) = Returns true l' /\
    ioLog l' = EvRead 8 (f_pos f) :: EvSeek indexPos
                 :: EvRead 4 indexPos :: EvRead 4 (indexPos + 4)
                 :: record_reads (indexPos + 8) (length recs) /\
    mStream l' = {| f_cells := f_cells f;
                    f_pos := indexPos + 8 + 12 * Z.of_nat (length recs);
                    f_eof := false; f_err := f_err f |}.
Proof.
  intros Hsec Hfit. pose proof Hsec as (_ & Hi & _).
  rewrite start_first by done. unfold readIndex.
  edestruct (readIndex_prefix ndebug (B := bool)) as [-> Hr]; [|exact Hsec|]; [done|].
  set (l0 := at_section (with_started (TextureLoader_new f) true) indexPos) in *.
  destruct (readIndex_tail ndebug l0 recs _ ltac:(simpl; lia) Hfit Hr)
    as (l' & -> & _ & _ & _ & Hlog & Hst).
  exists l'. split; [done|]. split; [exact Hlog|].
  rewrite Hst. unfold advance. cbn. f_equal. lia.
Qed.

Lemma start_reads_section_only_witness :
  index_section_at Samples.three_file 64 (encode_index 1 Samples.three_records) /\
  records_fit Samples.three_records /\
  exists l',
    start false (TextureLoader_new Samples.three_file) = Returns true l' /\
    ioLog l' = EvRead 8 0 :: EvSeek 64 :: EvRead 4 64 :: EvRead 4 (64 + 4)
                 :: record_reads (64 + 8) 3 /\
    mStream l' = {| f_cells := f_cells Samples.three_file;
                    f_pos := 64 + 8 + 12 * Z.of_nat 3;
                    f_eof := false; f_err := false |}.
Proof.
  assert (H1 : index_section_at Samples.three_file 64 (encode_index 1 Samples.three_records))
    by section_at_by_computation.
  assert (H2 : records_fit Samples.three_records) by records_fit_by_computation.
  split; [exact H1|]. split; [exact H2|].
  exact (start_reads_section_only false Samples.three_file 64 Samples.three_records H1 H2).
Defined.

(** X2 (a pointer that is no offset).  When the 8-byte pointer is 2^63 or
    more, its conversion to the signed offset type is negative, [fseek]
    refuses it and its result is not looked at: [readIndex] goes on
    reading right behind the pointer.  If a well-formed index section of
    version 1 lies there, [start] returns success with the records of
    that section (first record of an id first), whatever the pointer
    says. *)
Theorem start_pointer_out_of_range
    (ndebug : bool) (f : FILE) (pointer : Z) (recs : list (Z * Z))
    (rest : list (option byte)) :
  0 <= f_pos f ->
  2 ^ 63 <= pointer < 2 ^ 64 ->
  records_fit recs ->
  remaining f = (Some <$> be_encode 8 pointer ++ encode_index 1 recs) ++ rest ->
  exists l',
    start ndebug (TextureLoader_new f) = Returns true l' /\
    (forall tex, mIndex l' !! tex = first_offset tex recs) /\
    ioLog l' = EvRead 8 (f_pos f) :: EvSeek (pointer - 2 ^ 64)
                 :: EvRead 4 (f_pos f + 8) :: EvRead 4 (f_pos f + 8 + 4)
                 :: record_reads (f_pos f + 8 + 8) (length recs).
Proof.
  intros Hp Hptr Hfit Hr.
  rewrite fmap_app, <- app_assoc in Hr.
  rewrite start_first by done. unfold readIndex.
  edestruct (readIndex_prefix_refused ndebug (B := bool)) as [-> Hr0];
    [| |exact Hptr|exact Hr|]; [done|done|].
  set (l0 := behind_pointer (with_started (TextureLoader_new f) true) pointer) in *.
  destruct (readIndex_tail ndebug l0 recs _ ltac:(simpl; lia) Hfit Hr0)
    as (l' & -> & Hidx & _ & _ & Hlog & _).
  exists l'. split; [done|]. split.
  - intros tex. rewrite Hidx, lookup_emplace_all. done.
  - exact Hlog.
Qed.

Lemma start_pointer_out_of_range_witness :
  exists l',
    start false (TextureLoader_new Samples.stray_pointer_file) = Returns true l' /\
    (forall tex, mIndex l' !! tex = first_offset tex Samples.three_records) /\
    ioLog l' = EvRead 8 0 :: EvSeek (2 ^ 64 - 1 - 2 ^ 64)
                 :: EvRead 4 (0 + 8) :: EvRead 4 (0 + 8 + 4)
                 :: record_reads (0 + 8 + 8) 3.
Proof.
  apply (start_pointer_out_of_range false Samples.stray_pointer_file (2 ^ 64 - 1)
           Samples.three_records []).
  - vm_compute. discriminate.
  - lia.
  - records_fit_by_computation.
  - vm_compute. reflexivity.
Defined.

(** ** What the index can hold *)

Section Ranges.

Lemma be_decode_range (bs : list byte) :
  0 <= be_decode bs < 256 ^ Z.of_nat (length bs).
Proof.
  induction bs as [|b bs IH] using rev_ind.
  - cbn. lia.
  - rewrite be_decode_snoc, length_app. cbn [length].
    pose proof (byte_to_Z_range b).
    replace (Z.of_nat (length bs + 1)) with (Z.succ (Z.of_nat (length bs))) by lia.
    rewrite Z.pow_succ_r by lia. nia.
Qed.

Lemma read_cells_length (n : nat) (cs : list (option byte)) :
  (length (fst (read_cells n cs)) <= n)%nat.
Proof.
  revert cs. induction n as [|n IH]; intros cs; [done|].
  cbn [read_cells]. destruct cs as [|[b|] cs]; cbn; try lia.
  specialize (IH cs). destruct (read_cells n cs) as [bs e]. cbn in *. lia.
Qed.

(** A fixed-width read returns a value of its width, whatever the stream
    delivers. *)
Lemma getBe_range (n : nat) (f : FILE) :
  0 <= fst (getBe n f) < 256 ^ Z.of_nat n.
Proof.
  unfold getBe, fread.
  pose proof (read_cells_length n (drop (Z.to_nat (f_pos f)) (f_cells f))) as Hlen.
  destruct (read_cells _ _) as [bs e]. cbn [fst] in *.
  match goal with |- _ <= be_decode ?l < _ =>
    pose proof (be_decode_range l) as Hr end.
  rewrite length_app, length_replicate in Hr.
  by replace (length bs + (n - length bs))%nat with n in Hr by lia.
Qed.

Lemma emplace_all_app (r1 r2 : list (Z * Z)) (m : gmap Z Z) :
  emplace_all (r1 ++ r2) m = emplace_all r2 (emplace_all r1 m).
Proof. unfold emplace_all. by rewrite fold_left_app. Qed.

#[local] Instance index_emplaced_preorder : PreOrder index_emplaced.
Proof.
  split.
  - intros l. by exists [].
  - intros l1 l2 l3 (r1 & Hf1 & H1) (r2 & Hf2 & H2).
    exists (r1 ++ r2). split; [by apply Forall_app|].
    by rewrite emplace_all_app, <- H1.
Qed.

Lemma index_emplaced_same (l l' : TextureLoader) :
  mIndex l' = mIndex l -> index_emplaced l l'.
Proof. intros H. by exists []. Qed.

(** The loop emplaces records whose fields fit, whatever the stream
    delivers. *)
Lemma index_emplaced_readIndex_loop n : keeps index_emplaced (readIndex_loop n).
Proof.
  induction n as [|n IH]; intros nd l; [by exists []|].
  cbn [readIndex_loop].
  unfold mbind, M_bind, mStream_getBe32, mStream_getBe64, mIndex_emplace.
  pose proof (getBe_range 4 (mStream l)) as Htex. fold getBe32 in Htex.
  destruct (getBe32 (mStream l)) as [tex f1]. cbn [with_stream mStream fst] in *.
  pose proof (getBe_range 8 f1) as Hoff. fold getBe64 in Hoff.
  destruct (getBe64 f1) as [filePos f2]. cbn [fst] in *.
  etrans; [|apply IH].
  exists [(tex, filePos)]. split; [|done].
  apply Forall_singleton. split; cbn [fst snd]; lia.
Qed.

Lemma index_emplaced_readIndex : keeps index_emplaced readIndex.
Proof.
  unfold readIndex.
  apply keeps_bind; [apply _|by intros nd l; apply index_emplaced_same|intros sz].
  apply keeps_bind; [apply _|apply keeps_assert, _|intros _].
  apply keeps_bind; [apply _| |intros indexPos].
  { intros nd l. unfold mStream_getBe64. destruct (getBe64 _).
    by apply index_emplaced_same. }
  apply keeps_bind; [apply _| |intros _].
  { intros nd l. unfold fseek_mStream. destruct (fseek _ _).
    by apply index_emplaced_same. }
  apply keeps_bind; [apply _| |intros version].
  { intros nd l. unfold mStream_getBe32. destruct (getBe32 _).
    by apply index_emplaced_same. }
  apply keeps_if; [apply keeps_ret, _|].
  apply keeps_bind; [apply _| |intros texCount].
  { intros nd l. unfold mStream_getBe32. destruct (getBe32 _).
    by apply index_emplaced_same. }
  apply keeps_bind; [apply _|by intros nd l; apply index_emplaced_same|intros _].
  apply keeps_bind; [apply _|apply index_emplaced_readIndex_loop|intros _].
  apply keeps_ret, _.
Qed.

Lemma index_emplaced_start : keeps index_emplaced start.
Proof.
  unfold start.
  apply keeps_bind; [apply _|by intros nd l; apply index_emplaced_same|intros started].
  apply keeps_if.
  - apply keeps_bind; [apply _|by intros nd l; apply index_emplaced_same|intros hasError].
    apply keeps_ret, _.
  - apply keeps_bind; [apply _|by intros nd l; apply index_emplaced_same|intros _].
    apply keeps_bind; [apply _|apply index_emplaced_readIndex|intros res].
    apply keeps_if; [|apply keeps_ret, _].
    apply keeps_bind; [apply _|by intros nd l; apply index_emplaced_same|intros _].
    apply keeps_ret, _.
Qed.

(** Emplacing keeps what is bound and binds within range. *)
Lemma emplace_all_subseteq (recs : list (Z * Z)) (m : gmap Z Z) :
  m ⊆ emplace_all recs m.
Proof.
  apply map_subseteq_spec. intros k v Hk.
  by rewrite lookup_emplace_all, Hk.
Qed.

Lemma emplace_all_in_range (recs : list (Z * Z)) (m : gmap Z Z) :
  Forall record_fits recs -> index_in_range m -> index_in_range (emplace_all recs m).
Proof.
  intros Hfit Hm k v. rewrite lookup_emplace_all.
  destruct (m !! k) as [x|] eqn:Ek.
  - intros [= <-]. by apply (Hm k x).
  - intros Hf. apply first_offset_elem_of in Hf.
    rewrite Forall_forall in Hfit. by apply (Hfit (k, v)).
Qed.

End Ranges.

(** ** Sequences of calls *)

Section Calls.

Lemma final_bind {A B : Type} (m : M A) (k : A -> M B) ndebug l :
  final ((m ≫= k) ndebug l) =
    match m ndebug l with
    | Returns a l1 => final (k a ndebug l1)
    | Aborts l1 => l1
    end.
Proof. unfold mbind, M_bind. by destruct (m ndebug l). Qed.

(** The three ways a [loadTexture] call can go. *)
Lemma loadTexture_final texId loader ndebug l :
  final (loadTexture texId loader ndebug l) =
    match mIndex l !! texId with
    | Some off => after_load l off loader
    | None =>
        if ndebug
        then after_load (with_index l (<[texId := 0]> (mIndex l))) 0 loader
        else l
    end.
Proof.
  destruct (mIndex l !! texId) as [off|] eqn:Hk.
  - by rewrite (loadTexture_present texId loader ndebug l off Hk).
  - destruct ndebug.
    + by rewrite loadTexture_absent_ndebug.
    + by rewrite loadTexture_absent_assert.
Qed.

Lemma final_do_call_start ndebug l :
  final (do_call CallStart ndebug l) = final (start ndebug l).
Proof. cbn [do_call]. rewrite final_bind. by destruct (start ndebug l). Qed.

(** A property of loaders that every single call keeps is kept by every
    sequence of calls, wherever the sequence stops. *)
Lemma do_calls_invariant (P : call -> Prop) (I : TextureLoader -> Prop) ndebug :
  (forall c l, P c -> I l -> I (final (do_call c ndebug l))) ->
  forall cs l, Forall P cs -> I l -> I (final (do_calls cs ndebug l)).
Proof.
  intros Hstep cs. induction cs as [|c cs IH]; intros l Hcs Hl; [done|].
  apply Forall_cons in Hcs as [Hc Hcs].
  cbn [do_calls]. rewrite final_bind.
  specialize (Hstep c l Hc Hl).
  destruct (do_call c ndebug l) as [[] l1|l1]; cbn [final] in Hstep; [|done].
  by apply IH.
Qed.

Lemma Forall_any_call (cs : list call) : Forall (fun _ => True) cs.
Proof. by apply Forall_forall. Qed.

End Calls.

(** X3 (fields of the index).  Whatever the stream holds and whatever is
    called, the index only ever holds unsigned 32-bit texture ids bound to
    unsigned 64-bit offsets, provided the ids handed to [loadTexture] are
    32-bit values themselves: what [readIndex] emplaces comes out of a
    4-byte and an 8-byte read, and what a load of a missing id inserts
    (assertions compiled out) is that id with offset 0. *)
Theorem index_stays_in_range (ndebug : bool) (f : FILE) (cs : list call) :
  Forall call_fits cs ->
  index_in_range (mIndex (final (do_calls cs ndebug (TextureLoader_new f)))).
Proof.
  intros Hcs.
  apply (do_calls_invariant call_fits (fun l => index_in_range (mIndex l)) ndebug);
    [|done|apply map_Forall_empty].
  intros [|texId loader] l Hc Hl.
  - rewrite final_do_call_start.
    destruct (index_emplaced_start ndebug l) as (recs & Hfit & ->).
    by apply emplace_all_in_range.
  - cbn [do_call]. rewrite loadTexture_final.
    destruct (mIndex l !! texId) as [off|] eqn:Hk; [done|].
    destruct ndebug; [|done]. cbn [after_load with_index mIndex].
    apply map_Forall_insert_2; [|done]. cbn in Hc. lia.
Qed.

Lemma index_stays_in_range_witness :
  Forall call_fits Samples.three_calls /\
  index_in_range
    (mIndex (final (do_calls Samples.three_calls true
                      (TextureLoader_new Samples.unreadable_file)))).
Proof.
  assert (H : Forall call_fits Samples.three_calls).
  { repeat constructor; cbn; lia. }
  split; [exact H|].
  exact (index_stays_in_range true Samples.unreadable_file Samples.three_calls H).
Defined.

(** X4 (bindings are for good).  No call ever removes a texture id from
    the index or changes the offset it is bound to, in either build and in
    whatever state: [readIndex] inserts with [emplace], which leaves a
    bound id alone, [operator[]] inserts only an id that is not bound, and
    nothing erases. *)
Theorem bindings_never_change
    (ndebug : bool) (l : TextureLoader) (cs : list call) (texId off : Z) :
  mIndex l !! texId = Some off ->
  mIndex (final (do_calls cs ndebug l)) !! texId = Some off.
Proof.
  intros Hk.
  assert (Hsub : mIndex l ⊆ mIndex (final (do_calls cs ndebug l))).
  { apply (do_calls_invariant (fun _ => True) (fun l' => mIndex l ⊆ mIndex l') ndebug);
      [|apply Forall_any_call|done].
    intros [|t loader] l1 _ Hl1.
    - rewrite final_do_call_start.
      destruct (index_emplaced_start ndebug l1) as (recs & _ & ->).
      etrans; [exact Hl1|apply emplace_all_subseteq].
    - cbn [do_call]. rewrite loadTexture_final.
      destruct (mIndex l1 !! t) as [o|] eqn:Ht; [done|].
      destruct ndebug; [|done]. cbn [after_load with_index mIndex].
      etrans; [exact Hl1|by apply insert_subseteq]. }
  by apply (lookup_weaken _ _ _ _ Hk Hsub).
Qed.

Lemma bindings_never_change_witness :
  mIndex Samples.three_loader !! 42 = Some 2048 /\
  mIndex (final (do_calls [CallLoadTexture 3 Samples.read_nothing; CallStart] true
                   Samples.three_loader)) !! 42 = Some 2048.
Proof.
  assert (Hk : mIndex Samples.three_loader !! 42 = Some 2048) by (vm_compute; reflexivity).
  split; [exact Hk|].
  exact (bindings_never_change true Samples.three_loader
           [CallLoadTexture 3 Samples.read_nothing; CallStart] 42 2048 Hk).
Defined.

(** X5 (the index is built once).  In a build with assertions, once
    [start] has been called the index is never written again: after any
    sequence of calls, wherever it stops, the index is the one the first
    [start] left.  (Compiled without assertions, a load of a missing id
    adds that id.) *)
Theorem index_frozen_once_started (l : TextureLoader) (cs : list call) :
  mStarted l = true ->
  mIndex (final (do_calls cs false l)) = mIndex l.
Proof.
  intros Hs.
  assert (H : mStarted (final (do_calls cs false l)) = true /\
              mIndex (final (do_calls cs false l)) = mIndex l); [|by destruct H].
  apply (do_calls_invariant (fun _ => True)
           (fun l' => mStarted l' = true /\ mIndex l' = mIndex l) false);
    [|apply Forall_any_call|done].
  intros [|t loader] l1 _ [Hs1 Hi1].
  - rewrite final_do_call_start, start_again by done. done.
  - cbn [do_call]. rewrite loadTexture_final.
    by destruct (mIndex l1 !! t).
Qed.

Lemma index_frozen_once_started_witness :
  mStarted Samples.three_loader = true /\
  mIndex (final (do_calls [CallLoadTexture 2 Samples.read_pixels;
                           CallLoadTexture 3 Samples.read_pixels] false
                   Samples.three_loader)) = mIndex Samples.three_loader.
Proof.
  assert (Hs : mStarted Samples.three_loader = true) by (vm_compute; reflexivity).
  split; [exact Hs|].
  exact (index_frozen_once_started Samples.three_loader
           [CallLoadTexture 2 Samples.read_pixels;
            CallLoadTexture 3 Samples.read_pixels] Hs).
Defined.



(** X7 (a missing id without assertions).  Compiled with NDEBUG,
    [loadTexture] of a texture id that is not in the index does not fail:
    [mIndex[texId]] first binds the id to offset 0, the stream is sought
    to offset 0, the callback is invoked once on the stream at position 0,
    and the call returns.  From then on the id is an id of the index. *)
Theorem loadTexture_unknown_id_ndebug (l : TextureLoader) (texId : Z) (loader : loader_t) :
  mIndex l !! texId = None ->
  exists l',
    loadTexture texId loader true l = Returns tt l' /\
    mIndex l' = <[texId := 0]> (mIndex l) /\
    mIndex l' !! texId = Some 0 /\
    ioLog l' = ioLog l ++ [EvSeek 0; EvCall 0] /\
    mStream l' = loader {| f_cells := f_cells (mStream l); f_pos := 0;
                           f_eof := false; f_err := f_err (mStream l) |}.
Proof.
  intros Hk. eexists. split; [by apply loadTexture_absent_ndebug|].
  split; [done|]. split; [apply lookup_insert_eq|]. done.
Qed.

Lemma loadTexture_unknown_id_ndebug_witness :
  mIndex Samples.three_loader !! 3 = None /\
  exists l',
    loadTexture 3 Samples.read_pixels true Samples.three_loader = Returns tt l' /\
    mIndex l' = <[3 := 0]> (mIndex Samples.three_loader) /\
    mIndex l' !! 3 = Some 0 /\
    ioLog l' = ioLog Samples.three_loader ++ [EvSeek 0; EvCall 0] /\
    mStream l' =
      Samples.read_pixels
        {| f_cells := f_cells (mStream Samples.three_loader); f_pos := 0;
           f_eof := false; f_err := f_err (mStream Samples.three_loader) |}.
Proof.
  assert (Hk : mIndex Samples.three_loader !! 3 = None) by (vm_compute; reflexivity).
  split; [exact Hk|].
  exact (loadTexture_unknown_id_ndebug Samples.three_loader 3 Samples.read_pixels Hk).
Defined.

(** ** The error flag and the stream's error indicator *)

Section ErrorFlag.

Lemma fseek_f_err (f : FILE) (off : Z) : f_err (snd (fseek f off)) = f_err f.
Proof. unfold fseek. by destruct (off <? 0). Qed.

Lemma keeps_clear_read_nothing : keeps_clear Samples.read_nothing.
Proof. by intros f. Qed.

Lemma keeps_set_read_nothing : keeps_set Samples.read_nothing.
Proof. by intros f. Qed.

End ErrorFlag.

(** X8 (what raises the flag).  Only a stream error raises [mHasError]
    after [start]: on a started loader whose flag and whose stream's
    error indicator are clear, a sequence of calls whose callbacks leave a
    clear indicator clear leaves both clear, wherever it stops, and a
    [start] call then returns success.  An id that is not in the index,
    a refused seek or a callback that reads nothing do not count as
    errors. *)
Theorem flag_raised_only_by_stream_error
    (ndebug : bool) (l : TextureLoader) (cs : list call) :
  mStarted l = true ->
  mHasError l = false ->
  ferror (mStream l) = false ->
  Forall call_keeps_clear cs ->
  mHasError (final (do_calls cs ndebug l)) = false /\
  ferror (mStream (final (do_calls cs ndebug l))) = false /\
  start ndebug (final (do_calls cs ndebug l)) =
    Returns true (final (do_calls cs ndebug l)).
Proof.
  intros Hs He Hf Hcs.
  assert (H : mStarted (final (do_calls cs ndebug l)) = true /\
              mHasError (final (do_calls cs ndebug l)) = false /\
              f_err (mStream (final (do_calls cs ndebug l))) = false).
  { apply (do_calls_invariant call_keeps_clear
             (fun l' => mStarted l' = true /\ mHasError l' = false /\
                        f_err (mStream l') = false) ndebug); [|done|done].
    intros [|texId loader] l1 Hc (Hs1 & He1 & Hf1).
    - rewrite final_do_call_start, start_again by done. done.
    - cbn [do_call]. rewrite loadTexture_final. cbn in Hc.
      assert (Hload : forall l2 off,
                 mStarted l2 = true -> mHasError l2 = false ->
                 f_err (mStream l2) = false ->
                 mStarted (after_load l2 off loader) = true /\
                 mHasError (after_load l2 off loader) = false /\
                 f_err (mStream (after_load l2 off loader)) = false).
      { intros l2 off Hs2 He2 Hf2. unfold after_load, ferror. cbn.
        rewrite (Hc _ (eq_trans (fseek_f_err _ _) Hf2)). done. }
      destruct (mIndex l1 !! texId) as [off|]; [by apply Hload|].
      destruct ndebug; [by apply Hload|done]. }
  destruct H as (Hs' & He' & Hf'). split; [done|]. split; [done|].
  rewrite start_again by done. by rewrite He'.
Qed.

Lemma flag_raised_only_by_stream_error_witness :
  Forall call_keeps_clear Samples.three_calls /\
  mHasError (final (do_calls Samples.three_calls false Samples.three_loader)) = false /\
  ferror (mStream (final (do_calls Samples.three_calls false Samples.three_loader))) = false /\
  start false (final (do_calls Samples.three_calls false Samples.three_loader)) =
    Returns true (final (do_calls Samples.three_calls false Samples.three_loader)).
Proof.
  assert (H : Forall call_keeps_clear Samples.three_calls).
  { repeat constructor. apply keeps_clear_read_nothing. }
  split; [exact H|].
  exact (flag_raised_only_by_stream_error false Samples.three_loader Samples.three_calls
           ltac:(vm_compute; reflexivity) ltac:(vm_compute; reflexivity)
           ltac:(vm_compute; reflexivity) H).
Defined.

(** X9 (an error left in the stream).  [loadTexture] tests the stream's
    error indicator without ever clearing it, and [fseek] does not clear
    it either.  So when the indicator is already set as a load begins (for
    instance since the index was read, which [start] does not notice) and
    the callback does not clear it, the load of an id of the index raises
    [mHasError] although nothing failed during the load, and the next
    [start] returns failure. *)
Theorem stale_stream_error_is_charged
    (ndebug : bool) (l : TextureLoader) (texId off : Z) (loader : loader_t) :
  mStarted l = true ->
  ferror (mStream l) = true ->
  mIndex l !! texId = Some off ->
  keeps_set loader ->
  exists l',
    loadTexture texId loader ndebug l = Returns tt l' /\
    mHasError l' = true /\
    start ndebug l' = Returns false l'.
Proof.
  intros Hs Hf Hk Hset. exists (after_load l off loader).
  split; [by apply loadTexture_present|].
  assert (He : mHasError (after_load l off loader) = true).
  { unfold after_load, ferror. cbn.
    by rewrite (Hset _ (eq_trans (fseek_f_err _ _) Hf)). }
  split; [done|]. rewrite start_again by done. by rewrite He.
Qed.

Lemma stale_stream_error_is_charged_witness :
  start false (TextureLoader_new Samples.unreadable_file) =
    Returns true Samples.unreadable_loader /\
  ferror (mStream Samples.unreadable_loader) = true /\
  mIndex Samples.unreadable_loader !! 7 = Some 0 /\
  exists l',
    loadTexture 7 Samples.read_nothing false Samples.unreadable_loader = Returns tt l' /\
    mHasError l' = true /\
    start false l' = Returns false l'.
Proof.
  assert (Hf : ferror (mStream Samples.unreadable_loader) = true) by (vm_compute; reflexivity).
  assert (Hk : mIndex Samples.unreadable_loader !! 7 = Some 0) by (vm_compute; reflexivity).
  split; [vm_compute; reflexivity|]. split; [exact Hf|]. split; [exact Hk|].
  exact (stale_stream_error_is_charged false Samples.unreadable_loader 7 0
           Samples.read_nothing ltac:(vm_compute; reflexivity) Hf Hk
           keeps_set_read_nothing).
Defined.

(** ** The stream operations of a client's calls *)

(** X10 (seek, then callback, and nothing else).  After the first
    [start], the loader's own stream operations are, for every
    [loadTexture] call that returns, one seek directly followed by one
    entry into the callback, and nothing for a [start] call: a sequence of
    calls that returns extends the log by as many seek-and-callback pairs
    as it has [loadTexture] calls, in order.  The loader never reads the
    stream again and never calls back without seeking first. *)
Theorem calls_seek_then_call
    (ndebug : bool) (cs : list call) (l l' : TextureLoader) :
  mStarted l = true ->
  do_calls cs ndebug l = Returns tt l' ->
  exists ps : list (Z * Z),
    length ps = count_loads cs /\
    ioLog l' = ioLog l ++ flat_map seek_then_call ps.
Proof.
  revert l. induction cs as [|c cs IH]; intros l Hs Hrun.
  - injection Hrun as <-. exists []. by rewrite app_nil_r.
  - cbn [do_calls] in Hrun. unfold mbind at 1, M_bind at 1 in Hrun.
    destruct (do_call c ndebug l) as [[] l1|l1] eqn:Ec; [|discriminate].
    destruct c as [|texId loader]; cbn [do_call] in Ec.
    + unfold mbind, M_bind in Ec. rewrite start_again in Ec by done.
      injection Ec as <-. destruct (IH l Hs Hrun) as (ps & Hlen & Hlog).
      by exists ps.
    + pose proof (loadTexture_final texId loader ndebug l) as Hfin.
      rewrite Ec in Hfin. cbn [final] in Hfin.
      assert (Hone : exists p, mStarted l1 = true /\
                               ioLog l1 = ioLog l ++ seek_then_call p).
      { destruct (mIndex l !! texId) as [off|] eqn:Hk.
        - subst l1. by eexists (_, _).
        - destruct ndebug.
          + subst l1. by eexists (_, _).
          + rewrite loadTexture_absent_assert in Ec by done. discriminate. }
      destruct Hone as (p & Hs1 & Hlog1).
      destruct (IH l1 Hs1 Hrun) as (ps & Hlen & Hlog).
      exists (p :: ps). split.
      * unfold count_loads in *. cbn. by rewrite Hlen.
      * rewrite Hlog, Hlog1. cbn [flat_map]. by rewrite <- app_assoc.
Qed.

Lemma calls_seek_then_call_witness :
  mStarted Samples.three_loader = true /\
  exists ps : list (Z * Z),
    length ps = count_loads Samples.three_calls /\
    ioLog (final (do_calls Samples.three_calls false Samples.three_loader)) =
      ioLog Samples.three_loader ++ flat_map seek_then_call ps.
Proof.
  assert (Hs : mStarted Samples.three_loader = true) by (vm_compute; reflexivity).
  split; [exact Hs|].
  exact (calls_seek_then_call false Samples.three_calls Samples.three_loader _ Hs
           ltac:(vm_compute; reflexivity)).
Defined.

(** ** From the file to the callback *)




(** * The checks of the emulator's output *)

Section Output.

Import EmulatorOutput.

Lemma starts_with_spec (pat s : list byte) :
  starts_with pat s = true <-> exists post, s = pat ++ post.
Proof.
  revert s. induction pat as [|p pat IH]; intros s.
  - split; [by exists s|done].
  - destruct s as [|c s]; cbn [starts_with].
    + split; [done|]. by intros [post [=]].
    + rewrite andb_true_iff, IH. split.
      * intros [Hpc [post ->]]. apply Byte.byte_dec_bl in Hpc as ->. by exists post.
      * intros [post [= -> ->]]. split; [by apply Byte.byte_dec_lb|by exists post].
Qed.

(** [find] answers [npos] exactly when the text does not occur. *)
Lemma find_npos (s pat : list byte) :
  is_npos (find s pat) = true <-> ~ occurs_in pat s.
Proof.
  induction s as [|c s IH].
  - cbn [find]. destruct (starts_with pat []) eqn:E.
    + split; [done|]. intros H. exfalso. apply H.
      apply starts_with_spec in E as [post E]. by exists [], post.
    + split; [|done]. intros _ (pre & post & H).
      symmetry in H. apply app_eq_nil in H as [-> H].
      assert (starts_with pat [] = true); [|congruence].
      apply starts_with_spec. by exists post.
  - cbn [find]. destruct (starts_with pat (c :: s)) eqn:E.
    + split; [done|]. intros H. exfalso. apply H.
      apply starts_with_spec in E as [post E]. by exists [], post.
    + assert (Hfm : is_npos (S <$> find s pat) = is_npos (find s pat))
        by (by destruct (find s pat)).
      rewrite Hfm, IH. split.
      * intros Hno (pre & post & H). destruct pre as [|x pre].
        -- assert (starts_with pat (c :: s) = true); [|congruence].
           apply starts_with_spec. by exists post.
        -- injection H as _ ->. apply Hno. by exists pre, post.
      * intros Hno (pre & post & ->). apply Hno. by exists (c :: pre), post.
Qed.

(** [find] answers a position only when the text occurs. *)
Lemma find_found (s pat : list byte) :
  is_npos (find s pat) = false -> occurs_in pat s.
Proof.
  induction s as [|c s IH]; cbn [find].
  - destruct (starts_with pat []) eqn:E; [|done]. intros _.
    apply starts_with_spec in E as [post E]. by exists [], post.
  - destruct (starts_with pat (c :: s)) eqn:E.
    + intros _. apply starts_with_spec in E as [post E]. by exists [], post.
    + intros H. destruct (find s pat); [|done].
      destruct (IH eq_refl) as (pre & post & ->). by exists (c :: pre), post.
Qed.

End Output.

(** X12 (the SDK check).  [didSdkCheckSucceed] accepts an output exactly
    when it is not empty and the text "(does not exist)" occurs nowhere in
    it: an empty output fails, and so does every output that has the text
    anywhere, whatever surrounds it. *)
Theorem didSdkCheckSucceed_spec (output : list byte) :
  EmulatorOutput.didSdkCheckSucceed output = true <->
  output <> [] /\ ~ EmulatorOutput.occurs_in Markers.does_not_exist output.
Proof.
  unfold EmulatorOutput.didSdkCheckSucceed.
  rewrite andb_true_iff, find_npos.
  destruct output as [|c output]; cbn [EmulatorOutput.not_empty];
    intuition congruence.
Qed.

(** X13 (the kernel start-up check).  [didEmulatorKernelStartup] accepts
    an output exactly when both "Starting QEMU main loop" and
    "Cold boot: requested by the user" occur in it; the order of the two
    and the text around them do not matter. *)
Theorem didEmulatorKernelStartup_spec (output : list byte) :
  EmulatorOutput.didEmulatorKernelStartup output = true <->
  EmulatorOutput.occurs_in Markers.main_loop output /\
  EmulatorOutput.occurs_in Markers.cold_boot output.
Proof.
  unfold EmulatorOutput.didEmulatorKernelStartup.
  rewrite andb_true_iff, !negb_true_iff.
  assert (H : forall pat, EmulatorOutput.is_npos (EmulatorOutput.find output pat) = false
                          <-> EmulatorOutput.occurs_in pat output).
  { intros pat. split; [apply find_found|].
    intros Ho. pose proof (find_npos output pat) as Hn.
    destruct (EmulatorOutput.is_npos _); [|done].
    by destruct (proj1 Hn eq_refl). }
  by rewrite !H.
Qed.
